(** * pcanflash: the flashing session of [main] (pcanflash.c)

    A shallow embedding of [main] of pcanflash.c: option handling, the
    set-up of the CAN_RAW socket, module discovery and selection, the
    erase phase, the block-wise write phase with the patching of the
    embedded CRC array, and the closing commands.

    C integers are [Z]; bytes are [Z] in [0, 256); the static buffer
    [buf] is a [list Z] indexed as the C array is.  The headers
    pcanflash.h, pcanfunc.h, pcanhw.h and crc16.h are interfaces here:
    their constants, tables and helpers are the fields of the classes
    below.  Every call of a helper that sends on the bus is logged as an
    [event]; printing and [sleep] are left out. *)

From stdpp Require Import base numbers list.

Local Open Scope Z_scope.

(** ** Results of a piece of code *)

Inductive outcome (A : Type) : Type :=
| Ret (a : A)         (* control goes on with [a] *)
| Exit (status : Z)   (* the process ends: [return] from [main] or [exit] *)
| Undefined           (* an access outside an array: C gives it no meaning *)
| OutOfFuel.          (* the bound put on a loop of the model was too small *)

Arguments Ret {A} a.
Arguments Exit {A} status.
Arguments Undefined {A}.
Arguments OutOfFuel {A}.

(** ** The stream [infile] (stdio.h), for a regular file opened with "r" *)

Module Stdio.

Record FILE : Type := mkFILE {
  f_data : list Z;   (* the bytes of the file: never written *)
  f_pos : Z;         (* file position indicator *)
  f_eof : bool       (* end-of-file indicator *)
}.

Definition fopen (data : list Z) : FILE :=
  {| f_data := data; f_pos := 0; f_eof := false |}.

(** [fseek (f, off, SEEK_SET)]: the result and the stream afterwards.
    A successful call clears the end-of-file indicator. *)
Definition fseek_set (f : FILE) (off : Z) : Z * FILE :=
  if off <? 0 then (-1, f)
  else (0, {| f_data := f_data f; f_pos := off; f_eof := false |}).

(** [fread (ptr, 1, n, f)]: the bytes delivered and the stream
    afterwards.  A short count sets the end-of-file indicator. *)
Definition fread (f : FILE) (n : Z) : list Z * FILE :=
  let got := take (Z.to_nat n) (drop (Z.to_nat (f_pos f)) (f_data f)) in
  (got,
   {| f_data := f_data f;
      f_pos := f_pos f + Z.of_nat (length got);
      f_eof := f_eof f || (Z.of_nat (length got) <? n) |}).

Definition feof (f : FILE) : bool := f_eof f.

End Stdio.

Import Stdio.

(** ** Objects in [buf], read and written through a [crc_array_t *] *)

Module Mem.

(** Value of an object of [length bs] bytes on the (little-endian) host. *)
Fixpoint le_decode (bs : list Z) : Z :=
  match bs with
  | [] => 0
  | b :: bs' => b + 256 * le_decode bs'
  end.

(** The [sz] bytes of the object that holds [v], reduced modulo [2^(8*sz)]. *)
Fixpoint le_encode (sz : nat) (v : Z) : list Z :=
  match sz with
  | O => []
  | S sz' => (v `mod` 256) :: le_encode sz' (v `div` 256)
  end.

(** Read of an [sz]-byte object at index [off]; [None] when it does
    not lie inside the array. *)
Definition load (buf : list Z) (off sz : nat) : option Z :=
  let bs := take sz (drop off buf) in
  if decide (length bs = sz) then Some (le_decode bs) else None.

(** Write of an [sz]-byte object at index [off]; [None] when it does
    not lie inside the array. *)
Definition store (buf : list Z) (off sz : nat) (v : Z) : option (list Z) :=
  if decide (off + sz ≤ length buf)%nat
  then Some (take off buf ++ le_encode sz v ++ drop (off + sz) buf)
  else None.

(** [strcmp (mem, lit) == 0], [lit] given without its terminator:
    [Some true] when the strings are equal, [Some false] at the first
    difference, [None] when the comparison runs off the array. *)
Fixpoint c_strcmp_eq (mem lit : list Z) : option bool :=
  match lit, mem with
  | _, [] => None
  | [], m :: _ => Some (m =? 0)
  | c :: lit', m :: mem' =>
      if m =? c then (if c =? 0 then Some true else c_strcmp_eq mem' lit')
      else Some false
  end.

End Mem.

Import Mem.

(** ** The interfaces behind the headers *)

(** pcanflash.h *)
Class Constants : Type := {
  BLKSZ : Z;
  MAX_MODULES : Z;
  MAX_MODULES_MASK : Z;
  NO_MODULE_ID : Z;
  NO_DATA_LEN : Z;
  DATA_LEN6 : Z;
  DATA_LEN8 : Z
}.

(** "EMPTY / 0xFFU" (pcanflash.c, the comment on the test of the block). *)
Definition EMPTY : Z := 255.

Definition PCF_MIN_TX_QUEUE : Z := 500.

(** pcanhw.h: the capability flags and the table of hardware types. *)
Inductive hw_flag : Type :=
| SWITCH_TO_BOOTLOADER
| END_PROGRAMMING
| FDATA_INVERT
| RESET_AFTER_FLASH
| DATA_MODE8.

Class HardwareTable : Type := {
  has_hw_flags : Z -> hw_flag -> bool;
  get_num_flashblocks : Z -> Z;
  get_crc_startpos : Z -> Z;
  get_flash_offset : Z -> Z;
  (* [true]: the C function gives a value other than 0 *)
  check_flash_id_type : Z -> Z -> bool;
  check_ch_name : list Z -> Z -> bool
}.

(** crc16.h: [CRC_IDENT_STRING], the members of [crc_array_t] that [main]
    names (offset and size in bytes, [block_sz] being the size of one
    element of [block], which is never 0), and what [calc_crc16] may do. *)
Class CrcArray : Type := {
  CRC_IDENT_STRING : list Z;
  str_off : nat;
  mode_off : nat;
  mode_sz : nat;
  count_off : nat;
  count_sz : nat;
  block_off : nat;
  block_sz : positive;
  address_off : nat;
  address_sz : nat;
  len_off : nat;
  len_sz : nat;
  crc_off : nat;
  crc_sz : nat;
  (* the frozen checksum algorithm, over the bytes it is fed *)
  crc16_sum : list Z -> Z;
  (* the indicators of the stream when [calc_crc16] returns *)
  calc_crc16_pos : FILE -> Z -> Z -> Z;
  calc_crc16_eof : FILE -> Z -> Z -> bool
}.

(** The bytes [address, address + len) of an image. *)
Definition image_range (image : list Z) (address len : Z) : list Z :=
  take (Z.to_nat len) (drop (Z.to_nat address) image).

(** Modelled from the spec: crc16.c, which defines [calc_crc16], is not
    among the sources.  The function reads exactly [len] bytes starting
    at [startpos] from the original image and applies a fixed 16-bit
    checksum algorithm.  It works on the stream [main] hands it, so the
    position and the end-of-file indicator it leaves behind are those of
    the interface, not fixed here. *)
Definition calc_crc16 `{CrcArray} (infile : FILE) (startpos len : Z) : Z * FILE :=
  (crc16_sum (image_range (f_data infile) startpos len) `mod` 65536,
   {| f_data := f_data infile;
      f_pos := calc_crc16_pos infile startpos len;
      f_eof := calc_crc16_eof infile startpos len |}).

(** ** The log of helper calls, and the monad of [main] *)

Inductive event : Type :=
| EvQueryModules
| EvGetStatus (module_id : Z)
| EvGetJsonConfig (module_id : Z)
| EvSwitchToBootloader (module_id : Z)
| EvEraseFlashblocks (dry_run : bool) (module_id hw_type index : Z)
| EvWriteBlock (dry_run : bool) (module_id address size : Z) (buf : list Z)
               (alternating_xor_flip : bool) (dlc : Z)
| EvEndProgramming (module_id : Z)
| EvResetModule (module_id : Z).

(** A computation: the calls logged so far, and how it ended. *)
Definition M (A : Type) : Type := list event * outcome A.

Definition ret {A} (a : A) : M A := ([], Ret a).
Definition halt {A} (status : Z) : M A := ([], Exit status).
Definition undefined {A} : M A := ([], Undefined).
Definition emit (e : event) : M unit := ([e], Ret tt).

Definition bind {A B} (m : M A) (k : A -> M B) : M B :=
  match m with
  | (t, Ret a) => let '(t', o) := k a in (t ++ t', o)
  | (t, Exit s) => (t, Exit s)
  | (t, Undefined) => (t, Undefined)
  | (t, OutOfFuel) => (t, OutOfFuel)
  end.

#[global] Instance M_ret : MRet M := @ret.
#[global] Instance M_bind : MBind M := fun A B k m => bind m k.

Definition lift {A} (o : outcome A) : M A := ([], o).

(** Lays a computation open as a pair of a log and an outcome. *)
Ltac unfold_M :=
  unfold mbind, M_bind, bind, mret, M_ret, ret, lift, halt, undefined, emit in *.

Definition trace {A} (m : M A) : list event := fst m.
Definition result {A} (m : M A) : outcome A := snd m.

(** ** The CRC array in a block (pcanflash.c, lines 297-316) *)

Section CRCPatcher.
Context `{CrcArray}.

(** Index in [buf] of [ca->block[i]], [ca] being [&buf[ca_idx]]. *)
Definition block_idx (ca_idx : nat) (i : Z) : nat :=
  (ca_idx + block_off + Z.to_nat i * Pos.to_nat block_sz)%nat.

(** The members of [*ca] that [main] reads and writes, [ca] being
    [&buf[ca_idx]]: [!strcmp (ca->str, CRC_IDENT_STRING)],
    [ca->mode], [ca->count], [ca->block[i].address], [ca->block[i].len],
    [ca->block[i].crc], and [ca->block[i].crc = v]. *)
Definition ca_str_is_ident (buf : list Z) (ca_idx : nat) : option bool :=
  c_strcmp_eq (drop (ca_idx + str_off) buf) CRC_IDENT_STRING.
Definition ca_mode (buf : list Z) (ca_idx : nat) : option Z :=
  load buf (ca_idx + mode_off) mode_sz.
Definition ca_count (buf : list Z) (ca_idx : nat) : option Z :=
  load buf (ca_idx + count_off) count_sz.
Definition block_address (buf : list Z) (ca_idx : nat) (i : Z) : option Z :=
  load buf (block_idx ca_idx i + address_off) address_sz.
Definition block_len (buf : list Z) (ca_idx : nat) (i : Z) : option Z :=
  load buf (block_idx ca_idx i + len_off) len_sz.
Definition block_crc (buf : list Z) (ca_idx : nat) (i : Z) : option Z :=
  load buf (block_idx ca_idx i + crc_off) crc_sz.
Definition set_block_crc (buf : list Z) (ca_idx : nat) (i : Z) (v : Z)
    : option (list Z) :=
  store buf (block_idx ca_idx i + crc_off) crc_sz v.

(** [for (i = ...; i < ca->count; i++) ca->block[i].crc = calc_crc16 (...)]:
    [ca->count] and the members of [block[i]] are read from [buf] in
    every round, as the C loop does.  [fuel] bounds the rounds after
    the first. *)
Fixpoint patch_blocks (fuel : nat) (infile : FILE) (buf : list Z)
    (ca_idx : nat) (i : Z) : outcome (list Z * FILE) :=
  match ca_count buf ca_idx with
  | None => Undefined
  | Some count =>
      if i <? count then
        match block_address buf ca_idx i, block_len buf ca_idx i with
        | Some address, Some len =>
            let '(crc, infile') := calc_crc16 infile address len in
            match set_block_crc buf ca_idx i crc with
            | Some buf' =>
                match fuel with
                | O => OutOfFuel
                | S fuel' => patch_blocks fuel' infile' buf' ca_idx (i + 1)
                end
            | None => Undefined
            end
        | _, _ => Undefined
        end
      else Ret (buf, infile)
  end.

Definition supported_mode (mode : Z) : bool :=
  (mode =? 1) || (mode =? 3) || (mode =? 4).

(** The body of [if ((crc_start) && ...)]: what becomes of [buf] and
    of the stream.  Round [i] stores into [buf] at an index of at
    least [i], so the fuel given here is never used up. *)
Definition patch_crc_array (infile : FILE) (buf : list Z) (ca_idx : nat)
    : outcome (list Z * FILE) :=
  match ca_str_is_ident buf ca_idx with
  | None => Undefined
  | Some false => Ret (buf, infile)
  | Some true =>
      match ca_mode buf ca_idx with
      | None => Undefined
      | Some mode =>
          if supported_mode mode
          then patch_blocks (S (length buf)) infile buf ca_idx 0
          else Ret (buf, infile)
      end
  end.

(** The byte at index [p] of [buf] belongs to [ca->block[k].crc]. *)
Definition in_crc_field (ca_idx : nat) (k : Z) (p : nat) : Prop :=
  (block_idx ca_idx k + crc_off ≤ p < block_idx ca_idx k + crc_off + crc_sz)%nat.

(** What the declaration of [crc_array_t] must give for the loop to
    make sense: [count] lies before the array [block], the three
    members of an element lie inside it, [crc] overlaps neither
    [address] nor [len], and [crc] holds 16 bits. *)
Definition crc_array_wf : Prop :=
  (count_off + count_sz ≤ block_off)%nat ∧
  (address_off + address_sz ≤ Pos.to_nat block_sz)%nat ∧
  (len_off + len_sz ≤ Pos.to_nat block_sz)%nat ∧
  (crc_off + crc_sz ≤ Pos.to_nat block_sz)%nat ∧
  (address_off + address_sz ≤ crc_off ∨ crc_off + crc_sz ≤ address_off)%nat ∧
  (len_off + len_sz ≤ crc_off ∨ crc_off + crc_sz ≤ len_off)%nat ∧
  (2 ≤ crc_sz)%nat.

End CRCPatcher.

(** ** The write phase (pcanflash.c, lines 275-327) *)

(** One pass of the [while (1)] loop reads one block: where, what [buf]
    held after [memset] and [fread], and what [buf] held when it was
    handed to [write_block], if it was. *)
Record block_read : Type := mkRead {
  br_offset : Z;
  br_buf : list Z;
  br_sent : option (list Z)
}.

Section FlashSequencer.
Context `{Constants, HardwareTable, CrcArray}.

(** [memset (&buf, 0xFF, sizeof (buf)); fread (buf, 1, BLKSZ, infile);]
    with [sizeof (buf) = BLKSZ + 2]. *)
Definition fill_buf (got : list Z) : list Z :=
  got ++ replicate (Z.to_nat (BLKSZ + 2) - length got) 255.

(** [fseek], [memset], [fread]: [None] when [fseek] fails. *)
Definition read_block (infile : FILE) (foffset : Z) : option (list Z * FILE) :=
  let '(rc, f1) := fseek_set infile foffset in
  if rc =? 0 then
    let '(got, f2) := fread f1 BLKSZ in Some (fill_buf got, f2)
  else None.

(** [for (i = 0; i < BLKSZ; i++) if (buf[i] != EMPTY) break;] run over
    the first [BLKSZ] bytes of [buf]: the value of [i] afterwards. *)
Fixpoint first_non_empty (l : list Z) : Z :=
  match l with
  | [] => 0
  | b :: l' => if b =? EMPTY then 1 + first_non_empty l' else 0
  end.

Definition scan_block (buf : list Z) : Z :=
  first_non_empty (take (Z.to_nat BLKSZ) buf).

(** [(crc_start) && (crc_start >= foffset) && (crc_start < foffset + BLKSZ)] *)
Definition crc_in_block (crc_start foffset : Z) : bool :=
  negb (crc_start =? 0) && (foffset <=? crc_start) && (crc_start <? foffset + BLKSZ).

(** "check whether we need to patch the CRC array": [ca] points to
    [buf[crc_start - foffset]]. *)
Definition check_crc_array (crc_start foffset : Z) (infile : FILE) (buf : list Z)
    : outcome (list Z * FILE) :=
  if crc_in_block crc_start foffset
  then patch_crc_array infile buf (Z.to_nat (crc_start - foffset))
  else Ret (buf, infile).

(** What does not change from one block to the next. *)
Record flash_job : Type := mkJob {
  j_dry_run : bool;
  j_module_id : Z;
  j_hw_type : Z;
  j_dlc : Z   (* [modules[module_id].can_dlc] *)
}.

(** The part of the loop body under "non-empty block": what was
    handed to [write_block], and the stream afterwards. *)
Definition write_non_empty (j : flash_job) (infile : FILE) (foffset : Z)
    (buf : list Z) : M (option (list Z) * FILE) :=
  if scan_block buf =? BLKSZ then mret (None, infile)
  else
    '(buf', infile') ← lift (check_crc_array (get_crc_startpos (j_hw_type j))
                                foffset infile buf);
    emit (EvWriteBlock (j_dry_run j) (j_module_id j)
            (foffset + get_flash_offset (j_hw_type j)) BLKSZ buf'
            (has_hw_flags (j_hw_type j) FDATA_INVERT) (j_dlc j));;
    mret (Some buf', infile').

(** [while (1) { ... }]: the blocks read, in order. *)
Fixpoint write_loop (fuel : nat) (j : flash_job) (infile : FILE) (foffset : Z)
    : M (list block_read) :=
  match fuel with
  | O => lift OutOfFuel
  | S fuel' =>
      match read_block infile foffset with
      | None => mret []
      | Some (buf, f1) =>
          '(sent, f2) ← write_non_empty j f1 foffset buf;
          if feof f2 then mret [mkRead foffset buf sent]
          else
            rds ← write_loop fuel' j f2 (foffset + BLKSZ);
            mret (mkRead foffset buf sent :: rds)
      end
  end.

(** The call of [write_block] made in the pass that read [rd], if any. *)
Definition write_event (j : flash_job) (rd : block_read) : option event :=
  (fun sent =>
     EvWriteBlock (j_dry_run j) (j_module_id j)
       (br_offset rd + get_flash_offset (j_hw_type j)) BLKSZ sent
       (has_hw_flags (j_hw_type j) FDATA_INVERT) (j_dlc j)) <$> br_sent rd.

(** The address a logged call of [write_block] was given. *)
Definition write_address (e : event) : option Z :=
  match e with
  | EvWriteBlock _ _ address _ _ _ _ => Some address
  | _ => None
  end.

(** What one pass of the loop over the image did: [buf] held the
    bytes of the image from the offset on, filled up with 0xFF; an
    empty block was not handed on, any other block was, after the
    check of the CRC array. *)
Definition read_ok (image : list Z) (j : flash_job) (rd : block_read) : Prop :=
  br_buf rd = fill_buf (image_range image (br_offset rd) BLKSZ) ∧
  match br_sent rd with
  | None => scan_block (br_buf rd) = BLKSZ
  | Some sent =>
      scan_block (br_buf rd) ≠ BLKSZ ∧
      ∃ f0 f1, f_data f0 = image ∧
               check_crc_array (get_crc_startpos (j_hw_type j)) (br_offset rd)
                               f0 (br_buf rd) = Ret (sent, f1)
  end.

(** The stream after [fseek (infile, foffset, SEEK_SET)] and
    [fread (buf, 1, BLKSZ, infile)] on a file that holds [image]. *)
Definition stream_after_fread (image : list Z) (foffset : Z) : FILE :=
  {| f_data := image;
     f_pos := foffset + Z.of_nat (length (image_range image foffset BLKSZ));
     f_eof := Z.of_nat (length (image_range image foffset BLKSZ)) <? BLKSZ |}.

(** [calc_crc16] hands the stream back with the end-of-file indicator
    it found. *)
Definition calc_crc16_keeps_eof : Prop :=
  ∀ (f : FILE) (startpos len : Z), calc_crc16_eof f startpos len = f_eof f.

(** In the passes over [image], the check of the CRC array leaves the
    end-of-file indicator as [fread] set it: the test [feof (infile)] at
    the end of the pass sees what [fread] found. *)
Definition crc_check_keeps_eof (image : list Z) (j : flash_job) : Prop :=
  ∀ (k : Z) (buf' : list Z) (infile' : FILE),
    0 ≤ k ->
    check_crc_array (get_crc_startpos (j_hw_type j)) (k * BLKSZ)
                    (stream_after_fread image (k * BLKSZ))
                    (fill_buf (image_range image (k * BLKSZ) BLKSZ))
    = Ret (buf', infile') ->
    f_eof infile' = f_eof (stream_after_fread image (k * BLKSZ)).


(** [for (i = 0; i < entries; i++) erase_flashblocks (...)] with [n]
    rounds left. *)
Fixpoint erase_loop (n : nat) (j : flash_job) (i : Z) : M unit :=
  match n with
  | O => mret tt
  | S n' =>
      emit (EvEraseFlashblocks (j_dry_run j) (j_module_id j) (j_hw_type j) i);;
      erase_loop n' j (i + 1)
  end.

(** The closing commands (lines 329-354). *)
Definition end_programming_phase (j : flash_job) : M unit :=
  if has_hw_flags (j_hw_type j) END_PROGRAMMING then
    emit (EvEndProgramming (j_module_id j));;
    emit (EvGetStatus (j_module_id j))
  else mret tt.

Definition reset_phase (j : flash_job) (do_reset : bool) : M unit :=
  if has_hw_flags (j_hw_type j) RESET_AFTER_FLASH || do_reset then
    emit (EvResetModule (j_module_id j));;
    if has_hw_flags (j_hw_type j) RESET_AFTER_FLASH
    then emit (EvGetStatus (j_module_id j))
    else mret tt
  else mret tt.

(** The log of the reset at the end of [main]. *)
Definition reset_trace (j : flash_job) (do_reset : bool) : list event :=
  trace (reset_phase j do_reset).

Definition switch_phase (j : flash_job) : M unit :=
  if has_hw_flags (j_hw_type j) SWITCH_TO_BOOTLOADER then
    emit (EvSwitchToBootloader (j_module_id j));;
    emit (EvGetStatus (j_module_id j))
  else mret tt.

(** Lines 255-354: from the switch into the bootloader to the reset. *)
Definition flash_session (fuel : nat) (j : flash_job) (do_reset : bool)
    (infile : FILE) : M (list block_read) :=
  switch_phase j;;
  let entries := get_num_flashblocks (j_hw_type j) in
  if entries =? 0 then halt 1
  else
    erase_loop (Z.to_nat entries) j 0;;
    rds ← write_loop fuel j infile 0;
    end_programming_phase j;;
    reset_phase j do_reset;;
    mret rds.

End FlashSequencer.

(** ** What [main] is given: the command line, the system, the bus *)

(** [struct can_frame] (linux/can.h), as far as [main] uses it. *)
Record can_frame : Type := mkFrame {
  can_id : Z;
  can_dlc : Z;
  data : list Z
}.

Definition zero_frame : can_frame := mkFrame 0 0 (replicate 8 0).

(** [f.data[k]], [data] being an array of 8 bytes. *)
Definition data_at (f : can_frame) (k : nat) : Z :=
  default 0 (take 8 (data f) !! k).

(** [f.data[k] = v] *)
Definition set_data (f : can_frame) (k : nat) (v : Z) : can_frame :=
  mkFrame (can_id f) (can_dlc f)
          (<[k := v]> (take 8 (data f ++ replicate 8 0))).

(** [a[i]] for a C index: [None] outside the array. *)
Definition array_get {A} (a : list A) (i : Z) : option A :=
  if i <? 0 then None else a !! Z.to_nat i.

(** Conversion of an integer value to [int] (32 bits, two's complement). *)
Definition to_int (v : Z) : Z := (v + 2147483648) `mod` 4294967296 - 2147483648.

(** What [getopt] hands to the [switch], one by one: for [-f] whether
    [fopen] gave a stream (and then the bytes of the file), for [-i] the
    value of [strtoul]. *)
Inductive option_arg : Type :=
| OptF (opened : option (list Z))
| OptI (value : Z)
| OptQ
| OptR
| OptD
| OptOther.

Record world : Type := mkWorld {
  w_opts : list option_arg;
  w_nargs : Z;                       (* [argc - optind] *)
  w_socket : bool;                   (* [socket] gave a descriptor *)
  w_txqlen : option Z;               (* [ifr.ifr_qlen]; [None]: ioctl failed *)
  w_ifindex : bool;                  (* ioctl SIOCGIFINDEX succeeded *)
  w_bind : bool;                     (* [bind] succeeded *)
  w_entries : Z;                     (* result of [query_modules] *)
  w_modules : list can_frame;        (* and what it put into [modules] *)
  w_status : Z -> can_frame;         (* the frame [get_status] fills in *)
  (* [get_json_config]: [None] for a result other than 0, else the
     module entry and the status frame as it leaves them *)
  w_json : Z -> can_frame -> can_frame -> option (can_frame * can_frame);
  (* [scanf ("%d", &module_id)]: the [int] it stored into [module_id];
     [None]: it stored none, and [module_id] is as it was *)
  w_scanf : option Z
}.

(** The variables set by the options. *)
Record options : Type := mkOptions {
  o_infile : option FILE;
  o_query : bool;
  o_do_reset : bool;
  o_dry_run : bool;
  o_module_id : Z
}.

Section Main.
Context `{Constants, HardwareTable, CrcArray}.

Definition initial_options : options :=
  mkOptions None false false false NO_MODULE_ID.

(** [while ((opt = getopt (...)) != -1) switch (opt) ...] *)
Fixpoint getopt_loop (opts : list option_arg) (o : options) : M options :=
  match opts with
  | [] => mret o
  | OptF None :: _ => halt 1
  | OptF (Some bytes) :: rest =>
      getopt_loop rest (mkOptions (Some (fopen bytes)) (o_query o)
                          (o_do_reset o) (o_dry_run o) (o_module_id o))
  | OptI v :: rest =>
      getopt_loop rest (mkOptions (o_infile o) (o_query o)
                          (o_do_reset o) (o_dry_run o) (to_int v))
  | OptQ :: rest =>
      getopt_loop rest (mkOptions (o_infile o) true
                          (o_do_reset o) (o_dry_run o) (o_module_id o))
  | OptR :: rest =>
      getopt_loop rest (mkOptions (o_infile o) (o_query o)
                          true (o_dry_run o) (o_module_id o))
  | OptD :: rest =>
      getopt_loop rest (mkOptions (o_infile o) (o_query o)
                          (o_do_reset o) true (o_module_id o))
  | OptOther :: _ => halt 1
  end.

(** [(argc - optind) != 1 || (infile && query) || (!(infile || query))] *)
Definition bad_invocation (w : world) (o : options) : bool :=
  negb (w_nargs w =? 1)
  || (bool_decide (is_Some (o_infile o)) && o_query o)
  || negb (bool_decide (is_Some (o_infile o)) || o_query o).

(** Lines 125-163: socket, filter, queue length, interface index, bind. *)
Definition open_transport (w : world) : M unit :=
  if negb (w_socket w) then halt 1
  else match w_txqlen w with
       | None => halt 1
       | Some qlen =>
           if qlen <? PCF_MIN_TX_QUEUE then halt 1
           else if negb (w_ifindex w) then halt 1
           else if negb (w_bind w) then halt 1
           else mret tt
       end.

(** The static array [modules] once [query_modules] has run. *)
Definition modules_array (w : world) : list can_frame :=
  take (Z.to_nat MAX_MODULES)
       (w_modules w ++ replicate (Z.to_nat MAX_MODULES) zero_frame).

(** Lines 173-208, "print module list", with [n] slots still to visit. *)
Fixpoint module_list_loop (w : world) (n : nat) (i : Z)
    (modules : list can_frame) : M (list can_frame) :=
  match n with
  | O => mret modules
  | S n' =>
      match array_get modules i with
      | None => undefined
      | Some m =>
          if can_id m =? 0 then module_list_loop w n' (i + 1) modules
          else
            emit (EvGetStatus i);;
            let cf := w_status w i in
            '(m1, cf1) ←
              (if (data_at cf 3 =? 250) || (data_at cf 4 =? 250) then
                 emit (EvGetJsonConfig i);;
                 match w_json w i m cf with
                 | None => halt 1
                 | Some r => mret r
                 end
               else mret (m, cf));
            if check_flash_id_type (data_at cf1 3) (data_at cf1 4) then halt 1
            else
              module_list_loop w n' (i + 1)
                (<[Z.to_nat i := set_data m1 7 (data_at cf1 3)]> modules)
      end
  end.

(** "catch first and only module": the value of [module_id] after
    [for (i = 0; i < MAX_MODULES; i++) if (modules[i].can_id) ...]. *)
Fixpoint first_module (modules : list can_frame) (i : Z) (module_id : Z) : Z :=
  match modules with
  | [] => module_id
  | m :: rest => if can_id m =? 0 then first_module rest (i + 1) module_id else i
  end.

(** Lines 215-229: the value of [module_id] that indexes [modules].
    What [scanf] makes of the characters typed in is the library's
    business: the model takes the value it stored. *)
Definition choose_module_id (w : world) (module_id entries : Z)
    (modules : list can_frame) : Z :=
  if module_id =? NO_MODULE_ID then
    if entries =? 1 then first_module modules 0 module_id
    else
      Z.land (match w_scanf w with Some v => v | None => module_id end)
             MAX_MODULES_MASK
  else module_id.

(** Lines 215-234: the module to flash and its entry in [modules]. *)
Definition select_module (w : world) (module_id entries : Z)
    (modules : list can_frame) : M (Z * can_frame) :=
  let id := choose_module_id w module_id entries modules in
  match array_get modules id with
  | None => undefined
  | Some m => if can_id m =? 0 then halt 1 else mret (id, m)
  end.

(** [modules[module_id].can_dlc] after "take default values when not
    provided by JSON config". *)
Definition transfer_dlc (m : can_frame) (hw_type : Z) : Z :=
  if can_dlc m =? NO_DATA_LEN then
    if has_hw_flags hw_type DATA_MODE8 then DATA_LEN8 else DATA_LEN6
  else can_dlc m.

(** [main]: the helper calls it makes and the status the process ends
    with.  [fuel] bounds the passes of the write loop.  Past the test
    of [query], [infile] is a stream: the invocation would have been
    refused otherwise.  [check_ch_name] and [erase_flashblocks] are
    given the stream too; the write loop starts with [fseek], which sets
    the position and clears the end-of-file indicator whatever they
    were. *)
Definition main (fuel : nat) (w : world) : M Z :=
  o ← getopt_loop (w_opts w) initial_options;             (* lines 86-118 *)
  if bad_invocation w o then halt 0                       (* lines 120-123 *)
  else
    open_transport w;;                                    (* lines 125-163 *)
    emit EvQueryModules;;                                 (* line 165 *)
    if w_entries w =? 0 then halt 1
    else
      modules ← module_list_loop w (Z.to_nat MAX_MODULES) 0 (modules_array w);
      if o_query o then halt 0                            (* lines 210-213 *)
      else
        '(module_id, m) ← select_module w (o_module_id o) (w_entries w) modules;
        let hw_type := data_at m 7 in                     (* line 237 *)
        match o_infile o with
        | None => undefined
        | Some infile =>
            if check_ch_name (f_data infile) hw_type then halt 1
            else
              let j := mkJob (o_dry_run o) module_id hw_type
                             (transfer_dlc m hw_type) in
              flash_session fuel j (o_do_reset o) infile;;
              halt 0                                      (* line 361 *)
        end.

(** The helper calls that change the state of a module. *)
Definition mutating (e : event) : bool :=
  match e with
  | EvQueryModules | EvGetStatus _ | EvGetJsonConfig _ => false
  | _ => true
  end.

End Main.

(** ** A small platform to run the model on

    Blocks of 16 bytes, 4 module slots, and a CRC array laid out as
    [{ char str[4]; uint8_t mode; uint8_t count;
       struct { uint8_t address; uint8_t len; uint16_t crc; } block[]; }]
    with the ident string "CRC". *)

Module Demo.

Definition constants : Constants :=
  {| BLKSZ := 16; MAX_MODULES := 4; MAX_MODULES_MASK := 3;
     NO_MODULE_ID := -1; NO_DATA_LEN := 0; DATA_LEN6 := 6; DATA_LEN8 := 8 |}.

(** Hardware type 1 has every flag but the reset and scans for the
    CRC array at offset 2; type 2 resets after flashing and has no CRC
    array; type 3 has no flag at all. *)
Definition hardware : HardwareTable :=
  {| has_hw_flags := fun hw fl =>
       match fl with
       | RESET_AFTER_FLASH => hw =? 2
       | _ => (hw =? 1) || (hw =? 2)
       end;
     get_num_flashblocks := fun hw => if hw =? 0 then 0 else 3;
     get_crc_startpos := fun hw => if hw =? 1 then 2 else 0;
     get_flash_offset := fun _ => 4096;
     check_flash_id_type := fun hw fl => negb (hw =? fl);
     check_ch_name := fun _ _ => false |}.

Definition sum_bytes (bs : list Z) : Z := foldr Z.add 0 bs.

(** [calc_crc16] as [fseek] to [startpos] and one [fread] of [len] bytes. *)
Definition crc_array : CrcArray :=
  {| CRC_IDENT_STRING := [67; 82; 67];
     str_off := 0; mode_off := 4; mode_sz := 1; count_off := 5; count_sz := 1;
     block_off := 6; block_sz := 4%positive;
     address_off := 0; address_sz := 1; len_off := 1; len_sz := 1;
     crc_off := 2; crc_sz := 2;
     crc16_sum := sum_bytes;
     calc_crc16_pos := fun f a l => f_pos (snd (fread (snd (fseek_set f a)) l));
     calc_crc16_eof := fun f a l => f_eof (snd (fread (snd (fseek_set f a)) l)) |}.

(** A 40-byte image: a CRC array of mode 1 at offset 2 with the two
    ranges [0, 2) and [32, 40); the second block holds only 0xFF. *)
Definition image : list Z :=
  [1; 2; 67; 82; 67; 0; 1; 2; 0; 2; 0; 0; 32; 8; 0; 0]
  ++ replicate 16 255
  ++ [9; 9; 9; 9; 9; 9; 9; 9].

Definition job : flash_job := mkJob false 2 1 6.

(** A 12-byte image, less than one block: a CRC array of mode 1 at
    offset 2 with the one range [0, 2). *)
Definition short_image : list Z := [1; 2; 67; 82; 67; 0; 1; 1; 0; 2; 0; 0].

(** An image for hardware type 2, which has no CRC array to look for:
    it begins with what would be a valid CRC array. *)
Definition image_crc_at_0 : list Z :=
  [67; 82; 67; 0; 1; 1; 0; 4; 0; 0; 7; 7; 7; 7; 7; 7].

Definition job_no_crc : flash_job := mkJob false 2 2 6.

(** Two modules answer the discovery, in the slots 1 and 2; both are
    of hardware type 1 and flash type 1. *)
Definition found : can_frame := mkFrame 2023 0 (replicate 8 0).

Definition status_reply : can_frame := mkFrame 2023 8 [0; 0; 0; 1; 1; 0; 0; 0].

(** The array [modules] after the module list loop: the hardware type
    is in [data[7]]. *)
Definition modules : list can_frame :=
  [zero_frame;
   mkFrame 2023 0 [0; 0; 0; 0; 0; 0; 0; 1];
   mkFrame 2023 0 [0; 0; 0; 0; 0; 0; 0; 1];
   zero_frame].

(** [pcanflash -f image can0], a queue of exactly 500 frames, and the
    number 1 typed at the question for the module id. *)
Definition session : world :=
  {| w_opts := [OptF (Some image)];
     w_nargs := 1;
     w_socket := true;
     w_txqlen := Some 500;
     w_ifindex := true;
     w_bind := true;
     w_entries := 2;
     w_modules := [zero_frame; found; found; zero_frame];
     w_status := fun _ => status_reply;
     w_json := fun _ _ _ => None;
     w_scanf := Some 1 |}.

(** [pcanflash -f image -i 4 can0]: slot 4 of the slots 0..3. *)
Definition session_i4 : world :=
  {| w_opts := [OptF (Some image); OptI 4];
     w_nargs := 1;
     w_socket := true;
     w_txqlen := Some 500;
     w_ifindex := true;
     w_bind := true;
     w_entries := 2;
     w_modules := [zero_frame; found; found; zero_frame];
     w_status := fun _ => status_reply;
     w_json := fun _ _ _ => None;
     w_scanf := None |}.

(** [pcanflash can0]: neither [-f] nor [-q]. *)
Definition session_no_image : world :=
  {| w_opts := [];
     w_nargs := 1;
     w_socket := true;
     w_txqlen := Some 1000;
     w_ifindex := true;
     w_bind := true;
     w_entries := 2;
     w_modules := [zero_frame; found; found; zero_frame];
     w_status := fun _ => status_reply;
     w_json := fun _ _ _ => None;
     w_scanf := None |}.

End Demo.

(** ** What the module list prints (pcanflash.c, lines 187-193)

    The values handed to [printf] for a module found on the bus. *)

(** [((modules[i].data[0] << 2) | (modules[i].data[1] >> 6)) & 0xFF] *)
Definition ppcan_hw_id (m : can_frame) : Z :=
  Z.land (Z.lor (Z.shiftl (data_at m 0) 2) (Z.shiftr (data_at m 1) 6)) 255.

(** [modules[i].data[6] >> 5] and [modules[i].data[6] & 0x1F] *)
Definition bootloader_major (m : can_frame) : Z := Z.shiftr (data_at m 6) 5.
Definition bootloader_minor (m : can_frame) : Z := Z.land (data_at m 6) 31.

(** ** Notions used to state what the loops do *)

(** The slots [i], [i + 1], ... of [modules] that hold a module, [i]
    being the index of the first entry of the list. *)
Fixpoint found_slots (modules : list can_frame) (i : Z) : list Z :=
  match modules with
  | [] => []
  | m :: rest =>
      if can_id m =? 0 then found_slots rest (i + 1)
      else i :: found_slots rest (i + 1)
  end.

(** An option is accepted by the [switch] of the option loop: it is
    known, and for [-f] the file could be opened. *)
Definition accepted (a : option_arg) : Prop :=
  a ≠ OptOther ∧ a ≠ OptF None.

(** [(cf.data[3] == 250) || (cf.data[4] == 250)] for the status frame
    [cf] of the module in slot [i]. *)
Definition wants_json (w : world) (i : Z) : bool :=
  (data_at (w_status w i) 3 =? 250) || (data_at (w_status w i) 4 =? 250).

(** The calls the module list makes for a module found in slot [i]. *)
Definition probe_calls (w : world) (i : Z) : list event :=
  EvGetStatus i :: if wants_json w i then [EvGetJsonConfig i] else [].

(** The module a logged command is addressed to; [query_modules] goes
    to all of them. *)
Definition event_module (e : event) : option Z :=
  match e with
  | EvQueryModules => None
  | EvGetStatus module_id | EvGetJsonConfig module_id
  | EvSwitchToBootloader module_id
  | EvEraseFlashblocks _ module_id _ _
  | EvWriteBlock _ module_id _ _ _ _ _
  | EvEndProgramming module_id | EvResetModule module_id => Some module_id
  end.

(** The [dry_run] argument of a logged [erase_flashblocks] or
    [write_block]. *)
Definition event_dry_run (e : event) : option bool :=
  match e with
  | EvEraseFlashblocks dry_run _ _ _ | EvWriteBlock dry_run _ _ _ _ _ _ =>
      Some dry_run
  | _ => None
  end.

(** The calls with which the module list asks a module. *)
Definition probing (e : event) : bool :=
  match e with
  | EvGetStatus _ | EvGetJsonConfig _ => true
  | _ => false
  end.

(** A logged command goes to module [module_id], and carries [dry_run]
    if it has such an argument. *)
Definition addressed_to (module_id : Z) (dry_run : bool) (e : event) : Prop :=
  event_module e = Some module_id ∧
  (event_dry_run e = None ∨ event_dry_run e = Some dry_run).

(** The logged call with [dry_run] for its [dry_run] argument, if it
    has one. *)
Definition with_dry_run (dry_run : bool) (e : event) : event :=
  match e with
  | EvEraseFlashblocks _ module_id hw_type index =>
      EvEraseFlashblocks dry_run module_id hw_type index
  | EvWriteBlock _ module_id address size buf flip dlc =>
      EvWriteBlock dry_run module_id address size buf flip dlc
  | _ => e
  end.

(** ** More runs on the small platform *)

Module Bench.

(** [pcanflash -q -x can0]: an option that [getopt] does not know. *)
Definition session_bad_option : world :=
  {| w_opts := [OptQ; OptOther];
     w_nargs := 1;
     w_socket := true;
     w_txqlen := Some 1000;
     w_ifindex := true;
     w_bind := true;
     w_entries := 2;
     w_modules := [zero_frame; Demo.found; Demo.found; zero_frame];
     w_status := fun _ => Demo.status_reply;
     w_json := fun _ _ _ => None;
     w_scanf := None |}.

(** [pcanflash -q can0] *)
Definition session_query : world :=
  {| w_opts := [OptQ];
     w_nargs := 1;
     w_socket := true;
     w_txqlen := Some 1000;
     w_ifindex := true;
     w_bind := true;
     w_entries := 2;
     w_modules := [zero_frame; Demo.found; Demo.found; zero_frame];
     w_status := fun _ => Demo.status_reply;
     w_json := fun _ _ _ => None;
     w_scanf := None |}.

(** [pcanflash -f image -i 2 can0], the modules answering the status
    query with hardware type 1 and flash type 2. *)
Definition session_mismatch : world :=
  {| w_opts := [OptF (Some Demo.image); OptI 2];
     w_nargs := 1;
     w_socket := true;
     w_txqlen := Some 1000;
     w_ifindex := true;
     w_bind := true;
     w_entries := 2;
     w_modules := [zero_frame; Demo.found; Demo.found; zero_frame];
     w_status := fun _ => mkFrame 2023 8 [0; 0; 0; 1; 2; 0; 0; 0];
     w_json := fun _ _ _ => None;
     w_scanf := None |}.


(** A block of [BLKSZ + 2] bytes with a CRC array of mode 1 at offset
    2 that claims 200 elements. *)
Definition oversized_block : list Z :=
  [1; 2; 67; 82; 67; 0; 1; 200; 0; 2; 0; 0; 32; 8; 0; 0; 255; 255].

End Bench.

(** * Properties *)

(** ** Objects in a byte array *)

Section MemFacts.

Lemma length_le_encode (sz : nat) (v : Z) : length (le_encode sz v) = sz.
Proof. revert v; induction sz as [|sz IH]; intros v; simpl; [done|by rewrite IH]. Qed.

Lemma le_decode_encode (sz : nat) (v : Z) :
  le_decode (le_encode sz v) = v `mod` 256 ^ Z.of_nat sz.
Proof.
  revert v; induction sz as [|sz IH]; intros v.
  - simpl. by rewrite Z.mod_1_r.
  - cbn [le_encode le_decode]. rewrite IH.
    rewrite Nat2Z.inj_succ, Z.pow_succ_r by lia.
    rewrite Z.rem_mul_r by lia. done.
Qed.

Lemma store_length (buf buf' : list Z) (off sz : nat) (v : Z) :
  store buf off sz v = Some buf' -> length buf' = length buf.
Proof.
  unfold store. case_decide; [|done]. intros [= <-].
  rewrite !length_app, length_take, length_le_encode, length_drop. lia.
Qed.

Lemma store_fits (buf buf' : list Z) (off sz : nat) (v : Z) :
  store buf off sz v = Some buf' -> (off + sz ≤ length buf)%nat.
Proof. unfold store. by case_decide. Qed.

Lemma store_lookup_other (buf buf' : list Z) (off sz : nat) (v : Z) (p : nat) :
  store buf off sz v = Some buf' ->
  (p < off ∨ off + sz ≤ p)%nat ->
  buf' !! p = buf !! p.
Proof.
  unfold store. case_decide as Hfit; [|done]. intros [= <-] Hp.
  destruct Hp as [Hp|Hp].
  - rewrite lookup_app_l by (rewrite length_take; lia).
    by rewrite lookup_take_lt.
  - rewrite lookup_app_r by (rewrite length_take; lia).
    rewrite lookup_app_r by (rewrite length_take, length_le_encode; lia).
    rewrite lookup_drop, length_take, length_le_encode. f_equal. lia.
Qed.

(** A read sees only the bytes of the object. *)
Lemma load_ext (buf buf' : list Z) (off sz : nat) :
  length buf' = length buf ->
  (∀ p, (off ≤ p < off + sz)%nat -> buf' !! p = buf !! p) ->
  load buf' off sz = load buf off sz.
Proof.
  intros Hlen Hsame. unfold load.
  assert (take sz (drop off buf') = take sz (drop off buf)) as ->; [|done].
  apply list_eq. intros k.
  destruct (decide (k < sz)%nat) as [Hk|Hk].
  - rewrite !lookup_take_lt, !lookup_drop by done. apply Hsame. lia.
  - rewrite !lookup_take_ge by lia. done.
Qed.

Lemma load_store_other (buf buf' : list Z) (off sz off' sz' : nat) (v : Z) :
  store buf off sz v = Some buf' ->
  (off' + sz' ≤ off ∨ off + sz ≤ off')%nat ->
  load buf' off' sz' = load buf off' sz'.
Proof.
  intros Hst Hdisj. apply load_ext; [by eapply store_length|].
  intros p Hp. eapply store_lookup_other; [done|lia].
Qed.

Lemma load_store_same (buf buf' : list Z) (off sz : nat) (v : Z) :
  store buf off sz v = Some buf' ->
  load buf' off sz = Some (v `mod` 256 ^ Z.of_nat sz).
Proof.
  unfold store. case_decide as Hfit; [|done]. intros [= <-].
  unfold load.
  rewrite drop_app_length' by (rewrite length_take; lia).
  rewrite take_app_length' by (by rewrite length_le_encode).
  rewrite length_le_encode. case_decide; [|done].
  by rewrite le_decode_encode.
Qed.

End MemFacts.

(** ** The CRC patcher *)

Section PatcherFacts.
Context `{CrcArray}.

Lemma load_fits (buf : list Z) (off sz : nat) :
  (off + sz ≤ length buf)%nat -> is_Some (load buf off sz).
Proof.
  intros Hfit. unfold load. case_decide as Hlen; [by eexists|].
  rewrite length_take, length_drop in Hlen. lia.
Qed.

Lemma block_idx_base (ca_idx : nat) (i : Z) :
  (ca_idx + block_off ≤ block_idx ca_idx i)%nat.
Proof. unfold block_idx. apply Nat.le_add_r. Qed.

Lemma block_idx_lt (ca_idx : nat) (i k : Z) :
  0 ≤ i < k ->
  (block_idx ca_idx i + Pos.to_nat block_sz ≤ block_idx ca_idx k)%nat.
Proof.
  intros Hik. unfold block_idx.
  assert (S (Z.to_nat i) * Pos.to_nat block_sz
          ≤ Z.to_nat k * Pos.to_nat block_sz)%nat
    by (apply Nat.mul_le_mono_r; lia).
  simpl in *. lia.
Qed.

Lemma block_idx_ge (ca_idx : nat) (i : Z) :
  0 ≤ i -> (Z.to_nat i ≤ block_idx ca_idx i)%nat.
Proof.
  intros Hi. unfold block_idx.
  assert (Z.to_nat i * 1 ≤ Z.to_nat i * Pos.to_nat block_sz)%nat
    by (apply Nat.mul_le_mono_l; lia).
  lia.
Qed.

Lemma calc_crc16_range (f : FILE) (a l : Z) :
  0 ≤ fst (calc_crc16 f a l) < 65536.
Proof. simpl. apply Z.mod_pos_bound. lia. Qed.

(** The loop leaves the length of [buf] and the bytes of the file alone. *)
Lemma patch_blocks_frame (fuel : nat) (f f' : FILE) (buf buf' : list Z)
    (ca_idx : nat) (i : Z) :
  patch_blocks fuel f buf ca_idx i = Ret (buf', f') ->
  length buf' = length buf ∧ f_data f' = f_data f.
Proof.
  revert f buf i.
  unfold set_block_crc.
  induction fuel as [|fuel IH]; intros f buf i; simpl;
    repeat (case_match; try done); try (by intros [= <- <-]).
  intros Hrec. apply IH in Hrec as [-> ->].
  split; [by eapply store_length|done].
Qed.

(** With more fuel than [buf] has bytes the loop never stops for want
    of fuel: round [i] stores at an index of at least [i]. *)
Lemma patch_blocks_fuel (fuel : nat) (f : FILE) (buf : list Z)
    (ca_idx : nat) (i : Z) :
  0 ≤ i ->
  (length buf < fuel + Z.to_nat i)%nat ->
  patch_blocks fuel f buf ca_idx i ≠ OutOfFuel.
Proof.
  revert f buf i. unfold set_block_crc.
  induction fuel as [|fuel IH]; intros f buf i Hi Hfuel; simpl;
    repeat (case_match; try done).
  - (* no fuel: the store cannot have been inside [buf] *)
    exfalso.
    match goal with Hs : set_block_crc _ _ _ _ = Some _ |- _ =>
      apply store_fits in Hs end.
    pose proof (block_idx_ge ca_idx i Hi). lia.
  - apply IH; [lia|].
    match goal with Hs : set_block_crc _ _ _ _ = Some _ |- _ =>
      apply store_length in Hs; rewrite Hs end.
    lia.
Qed.

Lemma store_fits_Some (buf : list Z) (off sz : nat) (v : Z) :
  (off + sz ≤ length buf)%nat -> is_Some (store buf off sz v).
Proof. intros Hfit. unfold store. case_decide; [by eexists|lia]. Qed.

Lemma patch_blocks_done (fuel : nat) (f : FILE) (buf : list Z)
    (ca_idx : nat) (i count : Z) :
  ca_count buf ca_idx = Some count ->
  count ≤ i ->
  patch_blocks fuel f buf ca_idx i = Ret (buf, f).
Proof.
  intros Hcount Hi.
  destruct fuel; simpl; rewrite Hcount;
    (destruct (Z.ltb_spec i count); [lia|done]).
Qed.

Lemma patch_blocks_round (fuel : nat) (f : FILE) (buf buf' : list Z)
    (ca_idx : nat) (i count address len : Z) :
  ca_count buf ca_idx = Some count ->
  i < count ->
  block_address buf ca_idx i = Some address ->
  block_len buf ca_idx i = Some len ->
  set_block_crc buf ca_idx i (fst (calc_crc16 f address len)) = Some buf' ->
  patch_blocks (S fuel) f buf ca_idx i
  = patch_blocks fuel (snd (calc_crc16 f address len)) buf' ca_idx (i + 1).
Proof.
  intros Hcount Hi Ha Hl Hst. simpl in *. rewrite Hcount, Ha, Hl, Hst.
  destruct (Z.ltb_spec i count); [done|lia].
Qed.

Lemma crc16_fits_field (v : Z) :
  crc_array_wf -> 0 ≤ v < 65536 -> v `mod` 256 ^ Z.of_nat crc_sz = v.
Proof.
  intros (_ & _ & _ & _ & _ & _ & Hsz) Hv.
  apply Z.mod_small. split; [lia|].
  assert (256 ^ 2 ≤ 256 ^ Z.of_nat crc_sz) by (apply Z.pow_le_mono_r; lia).
  lia.
Qed.

(** The rounds [i], [i + 1], ..., [count - 1] of the loop, when the
    elements of [block] up to [count] lie inside [buf]. *)
Lemma patch_blocks_spec (n : nat) :
  crc_array_wf ->
  ∀ (fuel : nat) (f : FILE) (buf : list Z) (ca_idx : nat) (i count : Z),
    0 ≤ i ->
    Z.to_nat (count - i) = n ->
    (n ≤ fuel)%nat ->
    ca_count buf ca_idx = Some count ->
    (block_idx ca_idx count ≤ length buf)%nat ->
    ∃ buf' f',
      patch_blocks fuel f buf ca_idx i = Ret (buf', f') ∧
      (∀ p, (∀ k, i ≤ k < count -> ¬ in_crc_field ca_idx k p) ->
            buf' !! p = buf !! p) ∧
      (∀ k, i ≤ k < count ->
         ∃ address len,
           block_address buf ca_idx k = Some address ∧
           block_len buf ca_idx k = Some len ∧
           block_crc buf' ca_idx k
           = Some (crc16_sum (image_range (f_data f) address len) `mod` 65536)).
Proof.
  intros Hwf. pose proof Hwf as (Hcb & Hai & Hli & Hci & Hac & Hlc & Hsz).
  unfold ca_count, block_address, block_len, block_crc in *.
  induction n as [|n IH]; intros fuel f buf ca_idx i count Hi Hn Hfuel Hcount Hfit.
  { exists buf, f. split; [apply (patch_blocks_done _ _ _ _ _ count); [done|lia]|].
    split; [done|]. intros k Hk. lia. }
  assert (i < count) as Hlt by lia.
  pose proof (block_idx_lt ca_idx i count ltac:(lia)) as Hin.
  destruct (load_fits buf (block_idx ca_idx i + address_off) address_sz)
    as [address Ha]; [lia|].
  destruct (load_fits buf (block_idx ca_idx i + len_off) len_sz)
    as [len Hl]; [lia|].
  destruct (store_fits_Some buf (block_idx ca_idx i + crc_off) crc_sz
              (fst (calc_crc16 f address len))) as [buf1 Hst]; [lia|].
  destruct fuel as [|fuel]; [lia|].
  rewrite (patch_blocks_round fuel f buf buf1 ca_idx i count address len)
    by done.
  unfold ca_count, block_address, block_len, block_crc in *.
  pose proof (store_length _ _ _ _ _ Hst) as Hlen1.
  destruct (IH fuel (snd (calc_crc16 f address len)) buf1 ca_idx (i + 1) count)
    as (buf' & f' & Hrun & Hframe & Hcrc); [lia|lia|lia| |lia|].
  { rewrite <- Hcount. eapply load_store_other; [done|].
    left. pose proof (block_idx_base ca_idx i). lia. }
  pose proof (patch_blocks_frame _ _ _ _ _ _ _ Hrun) as [Hlen' _].
  exists buf', f'. split; [done|]. split.
  - intros p Hp. rewrite Hframe by (intros k Hk; apply Hp; lia).
    eapply store_lookup_other; [done|].
    specialize (Hp i ltac:(lia)). unfold in_crc_field in Hp. lia.
  - intros k Hk. destruct (decide (k = i)) as [->|Hne].
    + exists address, len. split; [done|]. split; [done|].
      erewrite load_ext; [erewrite load_store_same by done|done|].
      * f_equal. apply crc16_fits_field; [done|].
        apply (calc_crc16_range f address len).
      * intros p Hp. apply Hframe. intros k Hk'.
        pose proof (block_idx_lt ca_idx i k ltac:(lia)).
        unfold in_crc_field. lia.
    + destruct (Hcrc k ltac:(lia)) as (a & l & Hka & Hkl & Hkc).
      pose proof (block_idx_lt ca_idx i k ltac:(lia)).
      exists a, l. split; [|split; [|done]].
      * rewrite <- Hka. symmetry. eapply load_store_other; [done|]. right. lia.
      * rewrite <- Hkl. symmetry. eapply load_store_other; [done|]. right. lia.
Qed.

End PatcherFacts.

(** ** The write loop *)

Section SequencerFacts.
Context `{Constants, HardwareTable, CrcArray}.

Lemma patch_blocks_outcome (fuel : nat) (f : FILE) (buf : list Z)
    (ca_idx : nat) (i : Z) :
  0 ≤ i ->
  (length buf < fuel + Z.to_nat i)%nat ->
  patch_blocks fuel f buf ca_idx i = Undefined ∨
  ∃ buf' f', patch_blocks fuel f buf ca_idx i = Ret (buf', f').
Proof.
  intros Hi Hfuel.
  pose proof (patch_blocks_fuel fuel f buf ca_idx i Hi Hfuel) as Hno.
  assert (∀ s, patch_blocks fuel f buf ca_idx i ≠ Exit s) as Hex.
  { clear. revert f buf i.
    induction fuel as [|fuel IH]; intros f buf i s; simpl;
      repeat (case_match; try done). }
  destruct (patch_blocks fuel f buf ca_idx i) as [[buf' f']|s| |] eqn:Hp;
    [right; by eexists _, _|by destruct (Hex s)|by left|done].
Qed.

Lemma patch_crc_array_outcome (f : FILE) (buf : list Z) (ca_idx : nat) :
  patch_crc_array f buf ca_idx = Undefined ∨
  ∃ buf' f', patch_crc_array f buf ca_idx = Ret (buf', f') ∧
             length buf' = length buf ∧ f_data f' = f_data f.
Proof.
  unfold patch_crc_array. repeat case_match; try (by left);
    try (right; by eexists _, _).
  destruct (patch_blocks_outcome (S (length buf)) f buf ca_idx 0)
    as [?|(buf' & f' & Hp)]; [lia|lia|by left|].
  right. exists buf', f'. split; [done|]. by eapply patch_blocks_frame.
Qed.

Lemma check_crc_array_outcome (crc_start foffset : Z) (f : FILE) (buf : list Z) :
  check_crc_array crc_start foffset f buf = Undefined ∨
  ∃ buf' f', check_crc_array crc_start foffset f buf = Ret (buf', f') ∧
             length buf' = length buf ∧ f_data f' = f_data f.
Proof.
  unfold check_crc_array. case_match; [apply patch_crc_array_outcome|].
  right. by eexists _, _.
Qed.

Lemma patch_blocks_keeps_eof (fuel : nat) (f f' : FILE) (buf buf' : list Z)
    (ca_idx : nat) (i : Z) :
  calc_crc16_keeps_eof ->
  patch_blocks fuel f buf ca_idx i = Ret (buf', f') ->
  f_eof f' = f_eof f.
Proof.
  intros Hkeep. revert f buf i.
  induction fuel as [|fuel IH]; intros f buf i; simpl;
    repeat (case_match; try done); try (by intros [= <- <-]).
  intros Hrec. apply IH in Hrec as ->. simpl. apply Hkeep.
Qed.

Lemma check_crc_array_keeps_eof (crc_start foffset : Z) (f f' : FILE)
    (buf buf' : list Z) :
  calc_crc16_keeps_eof ->
  check_crc_array crc_start foffset f buf = Ret (buf', f') ->
  f_eof f' = f_eof f.
Proof.
  intros Hkeep. unfold check_crc_array, patch_crc_array.
  repeat (case_match; try done); try (by intros [= <- <-]).
  by apply patch_blocks_keeps_eof.
Qed.

(** The loop body under "non-empty block", case by case. *)
Lemma write_non_empty_cases (j : flash_job) (f : FILE) (foffset : Z)
    (buf : list Z) :
  write_non_empty j f foffset buf =
  if scan_block buf =? BLKSZ then ([], Ret (None, f))
  else
    match check_crc_array (get_crc_startpos (j_hw_type j)) foffset f buf with
    | Ret (buf', f') =>
        ([EvWriteBlock (j_dry_run j) (j_module_id j)
            (foffset + get_flash_offset (j_hw_type j)) BLKSZ buf'
            (has_hw_flags (j_hw_type j) FDATA_INVERT) (j_dlc j)],
         Ret (Some buf', f'))
    | Exit s => ([], Exit s)
    | Undefined => ([], Undefined)
    | OutOfFuel => ([], OutOfFuel)
    end.
Proof.
  unfold write_non_empty. case_match; [done|].
  by destruct (check_crc_array _ _ _ _) as [[buf' f']|s| |].
Qed.

(** [first_non_empty] stops at the end of the list exactly when every
    byte is [EMPTY]. *)
Lemma first_non_empty_bound (l : list Z) :
  0 ≤ first_non_empty l ≤ Z.of_nat (length l).
Proof. induction l as [|b l IH]; simpl; [lia|]. case_match; lia. Qed.

Lemma first_non_empty_all (l : list Z) :
  first_non_empty l = Z.of_nat (length l) ↔ Forall (fun b => b = 255) l.
Proof.
  induction l as [|b l IH]; simpl; [by split|].
  pose proof (first_non_empty_bound l).
  unfold EMPTY. destruct (Z.eqb_spec b 255) as [->|Hne].
  - rewrite Forall_cons. split.
    + intros Hl. split; [done|]. apply IH. lia.
    + intros [_ Hl]. apply IH in Hl. lia.
  - split; [lia|]. intros Hl. by inversion Hl.
Qed.

Lemma scan_block_empty (buf : list Z) :
  0 ≤ BLKSZ ->
  (Z.to_nat BLKSZ ≤ length buf)%nat ->
  scan_block buf = BLKSZ ↔ Forall (fun b => b = 255) (take (Z.to_nat BLKSZ) buf).
Proof.
  intros HB Hlen. unfold scan_block. rewrite <- first_non_empty_all.
  rewrite length_take_le by done. by rewrite Z2Nat.id.
Qed.

Lemma length_fill_buf (got : list Z) :
  (length got ≤ Z.to_nat (BLKSZ + 2))%nat ->
  length (fill_buf got) = Z.to_nat (BLKSZ + 2).
Proof. intros Hlen. unfold fill_buf. rewrite length_app, length_replicate. lia. Qed.

Lemma length_image_range (image : list Z) (address len : Z) :
  length (image_range image address len)
  = (Z.to_nat len `min` (length image - Z.to_nat address))%nat.
Proof. unfold image_range. by rewrite length_take, length_drop. Qed.

(** One [fseek], [memset], [fread] at an offset that is not negative. *)
Lemma read_block_at (f : FILE) (foffset : Z) :
  0 ≤ foffset ->
  read_block f foffset =
  Some (fill_buf (image_range (f_data f) foffset BLKSZ),
        stream_after_fread (f_data f) foffset).
Proof.
  intros Hoff. unfold read_block, fseek_set.
  destruct (Z.ltb_spec foffset 0); [lia|]. done.
Qed.

(** What a completed run of the loop has read and sent. *)
Lemma write_loop_reads (fuel : nat) (j : flash_job) :
  0 < BLKSZ ->
  ∀ (f : FILE) (foffset : Z) (t : list event) (reads : list block_read),
    0 ≤ foffset ->
    write_loop fuel j f foffset = (t, Ret reads) ->
    t = omap (write_event j) reads ∧
    (∀ (i : nat) rd, reads !! i = Some rd ->
                     br_offset rd = foffset + Z.of_nat i * BLKSZ) ∧
    Forall (read_ok (f_data f) j) reads.
Proof.
  intros HB.
  induction fuel as [|fuel IH]; intros f foffset t reads Hoff; [done|].
  cbn [write_loop]. rewrite read_block_at by done.
  set (buf := fill_buf _). set (f1 := stream_after_fread _ _).
  unfold_M. rewrite write_non_empty_cases.
  destruct (Z.eqb_spec (scan_block buf) BLKSZ) as [Hscan|Hscan].
  - (* an empty block *)
    destruct (feof f1) eqn:Heof.
    + intros [= <- <-]. split; [done|]. split.
      * intros [|i] rd; [|done]. intros [= <-]. simpl. lia.
      * constructor; [by split|constructor].
    + destruct (write_loop fuel j f1 (foffset + BLKSZ)) as [t' o'] eqn:Hrec.
      destruct o' as [rds| | |]; try done. intros [= <- <-].
      apply IH in Hrec as (-> & Hoffs & Hok); [|lia].
      split; [by rewrite app_nil_r|]. split.
      * intros [|i] rd; simpl; [intros [= <-]; simpl; lia|].
        intros Hrd. rewrite (Hoffs _ _ Hrd). lia.
      * constructor; [by split|done].
  - (* a block with data *)
    destruct (check_crc_array_outcome (get_crc_startpos (j_hw_type j))
                foffset f1 buf) as [->|(buf' & f' & Hchk & _ & Hdata)]; [done|].
    rewrite Hchk.
    assert (read_ok (f_data f) j (mkRead foffset buf (Some buf'))) as Hrd0.
    { split; [done|]. split; [done|]. by exists f1, f'. }
    destruct (feof f') eqn:Heof.
    + intros [= <- <-]. split; [done|]. split.
      * intros [|i] rd; [|done]. intros [= <-]. simpl. lia.
      * constructor; [exact Hrd0|constructor].
    + destruct (write_loop fuel j f' (foffset + BLKSZ)) as [t' o'] eqn:Hrec.
      destruct o' as [rds| | |]; try done. intros [= <- <-].
      apply IH in Hrec as (-> & Hoffs & Hok); [|lia].
      rewrite Hdata in Hok.
      split; [by rewrite app_nil_r|]. split.
      * intros [|i] rd; simpl; [intros [= <-]; simpl; lia|].
        intros Hrd. rewrite (Hoffs _ _ Hrd). lia.
      * by constructor.
Qed.

Lemma image_range_beyond (image : list Z) (address len : Z) :
  Z.of_nat (length image) ≤ address -> image_range image address len = [].
Proof.
  intros Hbeyond. unfold image_range. rewrite drop_ge by lia. by rewrite take_nil.
Qed.

Lemma scan_block_fill_nil : 0 ≤ BLKSZ -> scan_block (fill_buf []) = BLKSZ.
Proof.
  intros HB. apply scan_block_empty; [done| |].
  - rewrite length_fill_buf; simpl; lia.
  - apply Forall_take. unfold fill_buf. simpl. by apply Forall_replicate.
Qed.

(** With [BLKSZ > 0] and fuel for one pass more than the image has
    blocks, the loop runs to its end unless an access leaves [buf]. *)
Lemma write_loop_outcome (fuel : nat) (j : flash_job) :
  0 < BLKSZ ->
  ∀ (f : FILE) (foffset : Z),
    0 ≤ foffset ->
    (1 ≤ fuel)%nat ->
    Z.of_nat (length (f_data f)) - foffset ≤ (Z.of_nat fuel - 1) * BLKSZ ->
    result (write_loop fuel j f foffset) = Undefined ∨
    ∃ reads, result (write_loop fuel j f foffset) = Ret reads.
Proof.
  intros HB.
  induction fuel as [|fuel IH]; intros f foffset Hoff Hone Hfuel; [lia|].
  cbn [write_loop]. rewrite read_block_at by done.
  set (got := image_range (f_data f) foffset BLKSZ).
  set (buf := fill_buf _). set (f1 := stream_after_fread _ _).
  assert (∀ f2, f_data f2 = f_data f ->
                0 < Z.of_nat (length (f_data f)) - foffset ->
                result (write_loop fuel j f2 (foffset + BLKSZ)) = Undefined ∨
                ∃ reads, result (write_loop fuel j f2 (foffset + BLKSZ))
                         = Ret reads) as Hnext.
  { intros f2 Hdata Hleft. apply IH; [lia| |rewrite Hdata].
    - destruct fuel; [|lia]. simpl in Hfuel. lia.
    - nia. }
  unfold_M. rewrite write_non_empty_cases.
  destruct (Z.eqb_spec (scan_block buf) BLKSZ) as [Hscan|Hscan].
  - destruct (feof f1) eqn:Heof; [right; by eexists|].
    destruct (Hnext f1) as [Hu|[rds Hr]]; [done| | |].
    + simpl in Heof. apply Z.ltb_ge in Heof. subst got.
      rewrite length_image_range in Heof. lia.
    + left. destruct (write_loop fuel j f1 _) as [t' o']. simpl in *. by subst.
    + right. destruct (write_loop fuel j f1 _) as [t' o']. simpl in *. subst.
      by eexists.
  - destruct (check_crc_array_outcome (get_crc_startpos (j_hw_type j))
                foffset f1 buf) as [->|(buf' & f' & -> & _ & Hdata)];
      [by left|].
    destruct (feof f') eqn:Heof; [right; by eexists|].
    destruct (Hnext f') as [Hu|[rds Hr]]; [done| | |].
    + destruct (decide (Z.of_nat (length (f_data f)) ≤ foffset)) as [Hbey|]; [|lia].
      exfalso. apply Hscan. subst buf got.
      rewrite image_range_beyond by done. apply scan_block_fill_nil. lia.
    + left. destruct (write_loop fuel j f' _) as [t' o']. simpl in *. by subst.
    + right. destruct (write_loop fuel j f' _) as [t' o']. simpl in *. subst.
      by eexists.
Qed.

Lemma crc_check_keeps_eof_global (image : list Z) (j : flash_job) :
  calc_crc16_keeps_eof -> crc_check_keeps_eof image j.
Proof.
  intros Hkeep k buf' infile' _ Hchk.
  by eapply check_crc_array_keeps_eof.
Qed.

Lemma crc_check_keeps_eof_no_crc (image : list Z) (j : flash_job) :
  get_crc_startpos (j_hw_type j) = 0 -> crc_check_keeps_eof image j.
Proof. intros Hcrc k buf' infile' _. rewrite Hcrc. by intros [= <- <-]. Qed.

(** If the check of the CRC array leaves the end-of-file indicator as
    [fread] set it, the loop started at block [k] makes one pass for each
    of the blocks [k], ..., [length / BLKSZ]. *)
Lemma write_loop_passes (fuel : nat) (j : flash_job) (image : list Z) :
  0 < BLKSZ ->
  crc_check_keeps_eof image j ->
  ∀ (f : FILE) (k : Z) (t : list event) (reads : list block_read),
    f_data f = image ->
    0 ≤ k ≤ Z.of_nat (length image) `div` BLKSZ ->
    write_loop fuel j f (k * BLKSZ) = (t, Ret reads) ->
    Z.of_nat (length reads) = Z.of_nat (length image) `div` BLKSZ + 1 - k.
Proof.
  intros HB Hkeep.
  induction fuel as [|fuel IH]; intros f k t reads Hdata Hk; [done|].
  cbn [write_loop]. rewrite read_block_at by nia. rewrite Hdata.
  set (n := Z.of_nat (length image)) in *.
  pose proof (Z.mul_div_le n BLKSZ HB) as Hlo.
  pose proof (Z.mul_succ_div_gt n BLKSZ HB) as Hhi.
  set (m := n `div` BLKSZ) in *.
  set (buf := fill_buf _). set (f1 := stream_after_fread _ _).
  assert (feof f1 = bool_decide (k = m)) as Heof1.
  { unfold feof, f1, stream_after_fread. simpl. rewrite length_image_range.
    case_bool_decide as Hkm.
    - apply Z.ltb_lt. subst n. nia.
    - apply Z.ltb_ge. subst n. nia. }
  assert (∀ f2 t' rds,
            f_data f2 = image -> k ≠ m ->
            write_loop fuel j f2 (k * BLKSZ + BLKSZ) = (t', Ret rds) ->
            Z.of_nat (length rds) = m - k) as Hnext.
  { intros f2 t' rds Hdata2 Hkm Hrec.
    replace (k * BLKSZ + BLKSZ) with ((k + 1) * BLKSZ) in Hrec by lia.
    apply IH in Hrec; [|done|];
      change (Z.of_nat (length image) `div` BLKSZ) with m in *; lia. }
  unfold_M. rewrite write_non_empty_cases.
  destruct (Z.eqb_spec (scan_block buf) BLKSZ) as [Hscan|Hscan].
  - rewrite Heof1. case_bool_decide as Hkm.
    + intros [= <- <-]. simpl. lia.
    + destruct (write_loop fuel j f1 _) as [t' o'] eqn:Hrec.
      destruct o' as [rds| | |]; try done. intros [= <- <-].
      apply Hnext in Hrec; [|done..]. simpl. lia.
  - destruct (check_crc_array _ _ _ _) as [[buf' f']| | |] eqn:Hchk; try done.
    pose proof (Hkeep k buf' f' ltac:(lia) Hchk) as Heof.
    destruct (check_crc_array_outcome (get_crc_startpos (j_hw_type j))
                (k * BLKSZ) f1 buf) as [Hu|(? & ? & Hchk' & _ & Hdata')];
      [congruence|].
    rewrite Hchk in Hchk'. injection Hchk' as <- <-.
    unfold feof in *. fold f1 in Heof. rewrite Heof, Heof1.
    case_bool_decide as Hkm.
    + intros [= <- <-]. simpl. lia.
    + destruct (write_loop fuel j f' _) as [t' o'] eqn:Hrec.
      destruct o' as [rds| | |]; try done. intros [= <- <-].
      apply Hnext in Hrec; [|done..]. simpl. lia.
Qed.




End SequencerFacts.

(** * The claims *)

Section PatcherClaims.
Context `{Constants, HardwareTable, CrcArray}.

(** A range that lies inside the image has exactly [len] bytes. *)
Lemma length_image_range_exact (image : list Z) (address len : Z) :
  0 ≤ address -> 0 ≤ len ->
  address + len ≤ Z.of_nat (length image) ->
  Z.of_nat (length (image_range image address len)) = len.
Proof. intros Ha Hl Hfit. rewrite length_image_range. lia. Qed.

(** C1.  In the write phase, in the pass whose non-empty block holds the
    scan offset, the CRC array is acted upon only if [strcmp] finds the
    ident string and the mode is 1, 3 or 4.  If the ident string
    differs, or the mode is another one, [buf] goes to [write_block]
    byte for byte as read and the stream is as before.  If both match
    and the [count] elements lie inside [buf], then for every element
    [k] the member [crc] of the block handed to [write_block] is the
    16-bit checksum over the bytes [address, address + len) of the
    image file, [address] and [len] being the members read from [buf];
    no byte outside the [crc] members changes.  A block that goes out
    changed had the ident string and one of the three modes. *)
Theorem crc_array_patched_only_when_valid :
  crc_array_wf ->
  ∀ (j : flash_job) (infile : FILE) (foffset : Z) (buf : list Z),
    scan_block buf ≠ BLKSZ ->
    crc_in_block (get_crc_startpos (j_hw_type j)) foffset = true ->
    let ca := Z.to_nat (get_crc_startpos (j_hw_type j) - foffset) in
    let sent := fun b =>
      EvWriteBlock (j_dry_run j) (j_module_id j)
        (foffset + get_flash_offset (j_hw_type j)) BLKSZ b
        (has_hw_flags (j_hw_type j) FDATA_INVERT) (j_dlc j) in
    (ca_str_is_ident buf ca = Some false ->
     write_non_empty j infile foffset buf
     = ([sent buf], Ret (Some buf, infile)))
    ∧ (∀ mode, ca_str_is_ident buf ca = Some true ->
               ca_mode buf ca = Some mode ->
               mode ≠ 1 -> mode ≠ 3 -> mode ≠ 4 ->
               write_non_empty j infile foffset buf
               = ([sent buf], Ret (Some buf, infile)))
    ∧ (∀ mode count,
         ca_str_is_ident buf ca = Some true ->
         ca_mode buf ca = Some mode ->
         mode = 1 ∨ mode = 3 ∨ mode = 4 ->
         ca_count buf ca = Some count ->
         (block_idx ca count ≤ length buf)%nat ->
         ∃ buf' infile',
           write_non_empty j infile foffset buf
           = ([sent buf'], Ret (Some buf', infile')) ∧
           f_data infile' = f_data infile ∧
           length buf' = length buf ∧
           (∀ p, (∀ k, 0 ≤ k < count -> ¬ in_crc_field ca k p) ->
                 buf' !! p = buf !! p) ∧
           (∀ k, 0 ≤ k < count ->
              ∃ address len,
                block_address buf ca k = Some address ∧
                block_len buf ca k = Some len ∧
                block_crc buf' ca k
                = Some (crc16_sum (image_range (f_data infile) address len)
                        `mod` 65536)))
    ∧ (∀ t buf' infile',
         write_non_empty j infile foffset buf = (t, Ret (Some buf', infile')) ->
         buf' ≠ buf ->
         ca_str_is_ident buf ca = Some true ∧
         ∃ mode, ca_mode buf ca = Some mode ∧ (mode = 1 ∨ mode = 3 ∨ mode = 4)).
Proof.
  intros Hwf j infile foffset buf Hscan Hin ca sent.
  rewrite write_non_empty_cases.
  destruct (Z.eqb_spec (scan_block buf) BLKSZ) as [|_]; [done|].
  unfold check_crc_array. rewrite Hin. fold ca. unfold patch_crc_array.
  split; [|split; [|split]]; cycle 3.
  - intros t buf' infile'.
    destruct (ca_str_is_ident buf ca) as [[|]|]; [|by intros [= <- <- <-]|done].
    destruct (ca_mode buf ca) as [mode|]; [|done].
    destruct (supported_mode mode) eqn:Hmode; [|by intros [= <- <- <-]].
    intros _ _. split; [done|]. exists mode. split; [done|].
    unfold supported_mode in Hmode.
    destruct (Z.eqb_spec mode 1), (Z.eqb_spec mode 3), (Z.eqb_spec mode 4);
      auto; done.
  - by intros ->.
  - intros mode -> -> H1' H3' H4'. unfold supported_mode.
    destruct (Z.eqb_spec mode 1), (Z.eqb_spec mode 3), (Z.eqb_spec mode 4);
      done.
  - intros mode count -> -> Hmode Hcount Hfit.
    assert (supported_mode mode = true) as ->
      by (unfold supported_mode; destruct Hmode as [-> | [-> | ->]]; done).
    destruct (patch_blocks_spec (Z.to_nat count) Hwf (S (length buf))
                infile buf ca 0 count)
      as (buf' & infile' & Hrun & Hframe & Hcrc); [lia|f_equal; lia| |done..|].
    { destruct (decide (0 ≤ count)) as [Hc|Hc]; [|lia].
      pose proof (block_idx_ge ca count Hc). lia. }
    rewrite Hrun. exists buf', infile'.
    destruct (patch_blocks_frame _ _ _ _ _ _ _ Hrun) as [Hlen Hdata].
    done.
Qed.

End PatcherClaims.

Section WritePhaseClaims.
Context `{Constants, HardwareTable, CrcArray}.

Lemma fuel_covers_image (n : Z) (fuel : nat) :
  0 < BLKSZ -> 0 ≤ n ->
  n `div` BLKSZ + 2 ≤ Z.of_nat fuel ->
  (1 ≤ fuel)%nat ∧ n - 0 ≤ (Z.of_nat fuel - 1) * BLKSZ.
Proof.
  intros HB Hn Hfuel.
  pose proof (Z.mul_succ_div_gt n BLKSZ HB).
  pose proof (Z.div_pos n BLKSZ Hn HB).
  split; [lia|nia].
Qed.

(** The write loop over an image, when no access leaves [buf]. *)
Lemma write_loop_completes (fuel : nat) (j : flash_job) (f : FILE) :
  0 < BLKSZ ->
  Z.of_nat (length (f_data f)) `div` BLKSZ + 2 ≤ Z.of_nat fuel ->
  result (write_loop fuel j f 0) ≠ Undefined ->
  ∃ reads,
    write_loop fuel j f 0 = (omap (write_event j) reads, Ret reads) ∧
    (∀ (i : nat) rd, reads !! i = Some rd ->
                     br_offset rd = Z.of_nat i * BLKSZ) ∧
    Forall (read_ok (f_data f) j) reads.
Proof.
  intros HB Hfuel Hdef.
  destruct (fuel_covers_image (Z.of_nat (length (f_data f))) fuel)
    as [Hone Hbound]; [done|lia|done|].
  destruct (write_loop_outcome fuel j HB f 0) as [Hu|[reads Hr]];
    [done..|].
  destruct (write_loop fuel j f 0) as [t o] eqn:Hrun. simpl in Hr. subst o.
  destruct (write_loop_reads fuel j HB f 0 t reads) as (-> & Hoffs & Hok);
    [done..|].
  exists reads. split; [done|]. split; [|done].
  intros i rd Hrd. rewrite (Hoffs i rd Hrd). lia.
Qed.

Lemma read_ok_length (image : list Z) (j : flash_job) (rd : block_read) :
  0 < BLKSZ ->
  read_ok image j rd ->
  length (br_buf rd) = Z.to_nat (BLKSZ + 2).
Proof.
  intros HB [-> _]. apply length_fill_buf. rewrite length_image_range. lia.
Qed.

(** C2.  With [BLKSZ > 0], fuel for the whole image and no access
    outside [buf], the write loop ends and its log holds exactly the
    calls of [write_block] of its passes, in order.  A pass hands its
    block to [write_block] unless all [BLKSZ] bytes of the block, as
    read and filled up, are 0xFF; for such a block there is no call,
    and no call in the log carries its address. *)
Theorem empty_block_never_written :
  0 < BLKSZ ->
  ∀ (fuel : nat) (j : flash_job) (f : FILE),
    Z.of_nat (length (f_data f)) `div` BLKSZ + 2 ≤ Z.of_nat fuel ->
    result (write_loop fuel j f 0) ≠ Undefined ->
    ∃ reads,
      write_loop fuel j f 0 = (omap (write_event j) reads, Ret reads) ∧
      ∀ rd, rd ∈ reads ->
        (Forall (fun b => b = 255) (take (Z.to_nat BLKSZ) (br_buf rd))
         ↔ br_sent rd = None) ∧
        (br_sent rd = None ->
         ∀ e, e ∈ omap (write_event j) reads ->
              write_address e
              ≠ Some (br_offset rd + get_flash_offset (j_hw_type j))).
Proof.
  intros HB fuel j f Hfuel Hdef.
  destruct (write_loop_completes fuel j f HB Hfuel Hdef)
    as (reads & Hrun & Hoffs & Hok).
  exists reads. split; [done|]. intros rd Hrd.
  rewrite Forall_forall in Hok. pose proof (Hok rd Hrd) as Hrdok.
  pose proof (read_ok_length _ _ _ HB Hrdok) as Hlen.
  split.
  - rewrite <- scan_block_empty by lia.
    destruct Hrdok as [_ Hsent]. destruct (br_sent rd); [|done].
    destruct Hsent as [Hne _]. split; [done|discriminate].
  - intros Hnone e He.
    apply list_elem_of_omap in He as (rd' & Hrd' & Hev).
    unfold write_event in Hev.
    destruct (br_sent rd') as [sent|] eqn:Hsent'; [|done].
    injection Hev as <-. simpl. intros [= Hsame].
    apply list_elem_of_lookup in Hrd as [i Hi].
    apply list_elem_of_lookup in Hrd' as [i' Hi'].
    pose proof (Hoffs _ _ Hi). pose proof (Hoffs _ _ Hi').
    assert (i = i') as -> by nia. congruence.
Qed.


End WritePhaseClaims.

Section SessionClaims.
Context `{Constants, HardwareTable, CrcArray}.

Lemma check_crc_array_off (foffset : Z) (infile : FILE) (buf : list Z) :
  check_crc_array 0 foffset infile buf = Ret (buf, infile).
Proof. done. Qed.

Lemma check_crc_array_changes (crc_start foffset : Z) (infile infile' : FILE)
    (buf buf' : list Z) :
  0 ≤ foffset ->
  check_crc_array crc_start foffset infile buf = Ret (buf', infile') ->
  (buf', infile') ≠ (buf, infile) ->
  0 < crc_start ∧ foffset ≤ crc_start < foffset + BLKSZ.
Proof.
  intros Hoff. unfold check_crc_array, crc_in_block.
  destruct (Z.eqb_spec crc_start 0), (Z.leb_spec foffset crc_start),
    (Z.ltb_spec crc_start (foffset + BLKSZ)); simpl;
    try (intros [= <- <-]; done).
  intros _ _. lia.
Qed.

Lemma write_loop_defined_without_crc (fuel : nat) (j : flash_job) :
  get_crc_startpos (j_hw_type j) = 0 ->
  ∀ (f : FILE) (foffset : Z),
    result (write_loop fuel j f foffset) ≠ Undefined.
Proof.
  intros Hcrc.
  induction fuel as [|fuel IH]; intros f foffset; [done|].
  cbn [write_loop]. destruct (read_block f foffset) as [[buf f1]|]; [|done].
  unfold mbind, M_bind, bind, mret, M_ret, ret.
  rewrite write_non_empty_cases, Hcrc, check_crc_array_off.
  destruct (scan_block buf =? BLKSZ).
  - destruct (feof f1); [done|].
    specialize (IH f1 (foffset + BLKSZ)).
    destruct (write_loop fuel j f1 _) as [t' [rds| | |]]; done.
  - destruct (feof f1); [done|].
    specialize (IH f1 (foffset + BLKSZ)).
    destruct (write_loop fuel j f1 _) as [t' [rds| | |]]; done.
Qed.

(** C10.  For a hardware type whose CRC start position is 0 the check
    of the CRC array hands back [buf] and the stream untouched at every
    offset and for every content of [buf], so also for a block that
    begins with a valid CRC array; the write loop then ends, and every
    block it hands to [write_block] is the block as read.  For any
    start position, a check that changes [buf] or the stream had a
    start position above 0 inside [foffset, foffset + BLKSZ). *)
Theorem no_patch_without_crc_startpos :
  0 < BLKSZ ->
  ∀ (fuel : nat) (j : flash_job) (f : FILE),
    Z.of_nat (length (f_data f)) `div` BLKSZ + 2 ≤ Z.of_nat fuel ->
    (get_crc_startpos (j_hw_type j) = 0 ->
     (∀ foffset infile buf,
        check_crc_array (get_crc_startpos (j_hw_type j)) foffset infile buf
        = Ret (buf, infile)) ∧
     ∃ reads,
       write_loop fuel j f 0 = (omap (write_event j) reads, Ret reads) ∧
       Forall (fun rd => br_sent rd = None ∨ br_sent rd = Some (br_buf rd))
              reads)
    ∧ (∀ foffset infile buf buf' infile',
         0 ≤ foffset ->
         check_crc_array (get_crc_startpos (j_hw_type j)) foffset infile buf
         = Ret (buf', infile') ->
         (buf', infile') ≠ (buf, infile) ->
         0 < get_crc_startpos (j_hw_type j) ∧
         foffset ≤ get_crc_startpos (j_hw_type j) < foffset + BLKSZ).
Proof.
  intros HB fuel j f Hfuel. split.
  - intros Hcrc. split; [intros; rewrite Hcrc; apply check_crc_array_off|].
    destruct (write_loop_completes fuel j f HB Hfuel)
      as (reads & Hrun & _ & Hok);
      [by apply write_loop_defined_without_crc|].
    exists reads. split; [done|].
    eapply Forall_impl; [exact Hok|]. intros rd [_ Hsent].
    destruct (br_sent rd) as [sent|]; [|by left].
    destruct Hsent as (_ & f0 & f1 & _ & Hchk).
    rewrite Hcrc, check_crc_array_off in Hchk. right. congruence.
  - intros foffset infile buf buf' infile'. apply check_crc_array_changes.
Qed.

Lemma erase_loop_trace (n : nat) (j : flash_job) (i : Z) :
  erase_loop n j i
  = (EvEraseFlashblocks (j_dry_run j) (j_module_id j) (j_hw_type j)
       <$> seqZ i (Z.of_nat n),
     Ret tt).
Proof.
  revert i. induction n as [|n IH]; intros i; [done|].
  cbn [erase_loop]. unfold_M. rewrite IH.
  rewrite (seqZ_cons i) by lia. simpl.
  replace (Z.pred (Z.of_nat (S n))) with (Z.of_nat n) by lia.
  by replace (Z.succ i) with (i + 1) by lia.
Qed.



(** C5.  The reset at the end of [main]: [reset_module] is called if
    and only if the hardware type has RESET_AFTER_FLASH or [-r] was
    given; the log then starts with that call, and [get_status] follows
    it if and only if the type has RESET_AFTER_FLASH.  A reset that
    only [-r] asked for is the whole log: there is no status query. *)
Theorem status_after_reset_iff_flag :
  ∀ (j : flash_job) (do_reset : bool),
    let flag := has_hw_flags (j_hw_type j) RESET_AFTER_FLASH in
    let id := j_module_id j in
    result (reset_phase j do_reset) = Ret tt ∧
    (EvResetModule id ∈ reset_trace j do_reset
     ↔ flag = true ∨ do_reset = true) ∧
    (flag = true ∨ do_reset = true ->
     ∃ rest, reset_trace j do_reset = EvResetModule id :: rest ∧
             (EvGetStatus id ∈ rest ↔ flag = true) ∧
             (rest = [EvGetStatus id] ∨ rest = [])) ∧
    (flag = false -> do_reset = true ->
     reset_trace j do_reset = [EvResetModule id]).
Proof.
  intros j do_reset flag id. unfold reset_trace, reset_phase. fold flag id.
  destruct flag, do_reset; simpl; (split; [done|]).
  - (* mandated by the type, and asked for *)
    split; [split; [by left|intros _; apply list_elem_of_here]|].
    split; [|done]. intros _. exists [EvGetStatus id].
    split; [done|]. split; [|by left].
    split; [done|intros _; apply list_elem_of_here].
  - (* mandated by the type *)
    split; [split; [by left|intros _; apply list_elem_of_here]|].
    split; [|done]. intros _. exists [EvGetStatus id].
    split; [done|]. split; [|by left].
    split; [done|intros _; apply list_elem_of_here].
  - (* only asked for with -r *)
    split; [split; [by right|intros _; apply list_elem_of_here]|].
    split; [|done]. intros _. exists [].
    split; [done|]. split; [|by right].
    split; [intros Hin; by apply elem_of_nil in Hin|done].
  - (* no reset *)
    split; [split; [intros Hin; by apply elem_of_nil in Hin|by intros [?|?]]|].
    split; [by intros [?|?]|done].
Qed.

End SessionClaims.

Section MainClaims.
Context `{Constants, HardwareTable, CrcArray}.

Lemma getopt_loop_trace (opts : list option_arg) (o : options) :
  trace (getopt_loop opts o) = [].
Proof.
  revert o. induction opts as [|[[bytes|]|v| | | |] opts IH]; intros o;
    simpl; try done; apply IH.
Qed.

Lemma open_transport_cases (w : world) :
  (open_transport w = ([], Ret tt) ∧
   w_socket w = true ∧
   (∃ qlen, w_txqlen w = Some qlen ∧ PCF_MIN_TX_QUEUE ≤ qlen) ∧
   w_ifindex w = true ∧ w_bind w = true)
  ∨ (open_transport w = ([], Exit 1) ∧
     (w_socket w = false ∨ w_txqlen w = None ∨
      (∃ qlen, w_txqlen w = Some qlen ∧ qlen < PCF_MIN_TX_QUEUE) ∨
      w_ifindex w = false ∨ w_bind w = false)).
Proof.
  unfold open_transport.
  destruct (w_socket w); simpl; [|right; by auto].
  destruct (w_txqlen w) as [qlen|]; [|right; by auto].
  destruct (Z.ltb_spec qlen PCF_MIN_TX_QUEUE).
  { right. split; [done|]. right. right. left. by exists qlen. }
  destruct (w_ifindex w); simpl; [|right; by auto 6].
  destruct (w_bind w); simpl; [|right; by auto 6].
  left. repeat split; try done. by exists qlen.
Qed.

(** The module list loop only asks: status queries and configuration
    reads. *)
Lemma module_list_loop_quiet (w : world) (n : nat) :
  ∀ (i : Z) (modules : list can_frame),
    Forall (fun e => mutating e = false)
           (trace (module_list_loop w n i modules)).
Proof.
  induction n as [|n IH]; intros i modules; [by constructor|].
  cbn [module_list_loop].
  destruct (array_get modules i) as [m|]; [|by constructor].
  destruct (can_id m =? 0); [apply IH|].
  unfold_M. cbn [app].
  destruct ((data_at (w_status w i) 3 =? 250) || (data_at (w_status w i) 4 =? 250)).
  - destruct (w_json w i m (w_status w i)) as [[m1 cf1]|]; simpl;
      [|by repeat constructor].
    destruct (check_flash_id_type (data_at cf1 3) (data_at cf1 4));
      [by repeat constructor|].
    specialize (IH (i + 1) (<[Z.to_nat i:=set_data m1 7 (data_at cf1 3)]> modules)).
    destruct (module_list_loop w n _ _) as [t' o']. simpl in *.
    by repeat constructor.
  - simpl.
    destruct (check_flash_id_type (data_at (w_status w i) 3)
                                  (data_at (w_status w i) 4));
      [by repeat constructor|].
    specialize (IH (i + 1)
                  (<[Z.to_nat i:=set_data m 7 (data_at (w_status w i) 3)]> modules)).
    destruct (module_list_loop w n _ _) as [t' o']. simpl in *.
    by repeat constructor.
Qed.

(** [main] is the discovery, which changes nothing on a module, and
    then, if it gets that far, the flashing session of lines 255-354;
    it returns 0 when that session runs to its end. *)
Lemma main_runs_flash_session (fuel : nat) (w : world) :
  Forall (fun e => mutating e = false) (trace (main fuel w)) ∨
  ∃ prefix j do_reset infile,
    Forall (fun e => mutating e = false) prefix ∧
    trace (main fuel w)
    = prefix ++ trace (flash_session fuel j do_reset infile) ∧
    ∀ reads, result (flash_session fuel j do_reset infile) = Ret reads ->
             result (main fuel w) = Exit 0.
Proof.
  unfold main.
  pose proof (getopt_loop_trace (w_opts w) initial_options) as Ht.
  destruct (getopt_loop (w_opts w) initial_options) as [t r]. simpl in Ht.
  subst t. unfold_M.
  destruct r as [o|s| |]; try (left; by constructor).
  destruct (bad_invocation w o); [left; by constructor|].
  destruct (open_transport_cases w) as [(-> & _)|(-> & _)];
    [|left; by constructor].
  destruct (w_entries w =? 0); [left; by repeat constructor|].
  pose proof (module_list_loop_quiet w (Z.to_nat MAX_MODULES) 0 (modules_array w))
    as Hquiet.
  destruct (module_list_loop w _ 0 _) as [t0 [modules|s| |]]; simpl in Hquiet;
    try (left; simpl; constructor; [done|exact Hquiet]).
  destruct (o_query o);
    [left; simpl; rewrite ?app_nil_r; constructor; [done|exact Hquiet]|].
  unfold select_module. unfold_M.
  destruct (array_get modules _) as [m|];
    [|left; simpl; rewrite ?app_nil_r; constructor; [done|exact Hquiet]].
  destruct (can_id m =? 0);
    [left; simpl; rewrite ?app_nil_r; constructor; [done|exact Hquiet]|].
  cbv beta iota zeta.
  destruct (o_infile o) as [infile|];
    [|left; simpl; rewrite ?app_nil_r; constructor; [done|exact Hquiet]].
  cbv beta iota zeta.
  destruct (check_ch_name (f_data infile) (data_at m 7));
    [left; simpl; rewrite ?app_nil_r; constructor; [done|exact Hquiet]|].
  right.
  set (j := mkJob (o_dry_run o)
                  (choose_module_id w (o_module_id o) (w_entries w) modules)
                  (data_at m 7) (transfer_dlc m (data_at m 7))).
  exists (EvQueryModules :: t0), j, (o_do_reset o), infile.
  split; [constructor; [done|exact Hquiet]|].
  destruct (flash_session fuel j (o_do_reset o) infile) as [t1 o1].
  destruct o1 as [rds|s| |]; simpl; rewrite ?app_nil_r; by split.
Qed.

(** C6, as the code has it.  Whenever [main] makes any helper call on
    the bus, the socket was opened, the queue length was read and is at
    least PCF_MIN_TX_QUEUE (500), the interface index was found and
    [bind] succeeded.  When the options and arguments are accepted and
    one of these steps fails, or the queue length is below 500, [main]
    ends with status 1 and no call has been made. *)
Theorem transport_checked_before_traffic :
  ∀ (fuel : nat) (w : world),
    (trace (main fuel w) ≠ [] ->
     w_socket w = true ∧
     (∃ qlen, w_txqlen w = Some qlen ∧ PCF_MIN_TX_QUEUE ≤ qlen) ∧
     w_ifindex w = true ∧ w_bind w = true)
    ∧ (∀ o, result (getopt_loop (w_opts w) initial_options) = Ret o ->
            bad_invocation w o = false ->
            w_socket w = false ∨ w_txqlen w = None ∨
            (∃ qlen, w_txqlen w = Some qlen ∧ qlen < PCF_MIN_TX_QUEUE) ∨
            w_ifindex w = false ∨ w_bind w = false ->
            main fuel w = ([], Exit 1)).
Proof.
  intros fuel w. unfold main.
  pose proof (getopt_loop_trace (w_opts w) initial_options) as Ht.
  destruct (getopt_loop (w_opts w) initial_options) as [t r]. simpl in Ht.
  subst t. unfold_M. split.
  - destruct r as [o|s| |]; simpl; try done.
    destruct (bad_invocation w o); [done|].
    destruct (open_transport_cases w) as [(-> & Hok)|(-> & _)]; [|done].
    done.
  - intros o [= ->] -> Hfail.
    destruct (open_transport_cases w) as [(_ & Hs & (q & Hq & Hge) & Hi & Hb)
                                         |(-> & _)]; [|done].
    destruct Hfail as [?|[?|[(q' & Hq' & Hlt)|[?|?]]]]; try congruence.
    rewrite Hq in Hq'. injection Hq' as <-. lia.
Qed.

(** C8, at the inputs the claim names.  When the options are accepted
    and either no image was given and [-q] was not, or the number of
    remaining arguments is not 1, [main] prints the usage and returns
    0: the status of a session that succeeded. *)
Theorem usage_error_returns_zero :
  ∀ (fuel : nat) (w : world) (o : options),
    result (getopt_loop (w_opts w) initial_options) = Ret o ->
    (o_infile o = None ∧ o_query o = false) ∨ w_nargs w ≠ 1 ->
    main fuel w = ([], Exit 0).
Proof.
  intros fuel w o Hopt Hbad. unfold main.
  pose proof (getopt_loop_trace (w_opts w) initial_options) as Ht.
  destruct (getopt_loop (w_opts w) initial_options) as [t r].
  simpl in Ht, Hopt. subst t r. unfold_M.
  assert (bad_invocation w o = true) as ->; [|done].
  unfold bad_invocation. destruct Hbad as [[-> ->]|Hn].
  - rewrite bool_decide_eq_false_2 by (by intros [? ?]).
    simpl. by rewrite orb_true_r.
  - destruct (Z.eqb_spec (w_nargs w) 1); [done|]. done.
Qed.

(** C7, as the code has it.  When no module id was given and the
    number of modules found is not 1, [main] asks for one: it masks the
    value [scanf] stored with MAX_MODULES_MASK and takes that slot, as
    it takes a module id given with [-i].  Several modules alone never
    end the session.  From there [main] ends with status 1, before any
    command that changes a module, if the slot holds no module that was
    found or [check_ch_name] refuses the image for the module's hardware
    type; otherwise it runs the flashing session for that module and
    ends as that session does: with status 0 when the session runs to
    its end. *)
Theorem ambiguous_module_is_asked_for :
  ∀ (w : world) (entries : Z) (modules : list can_frame),
    entries ≠ 1 ->
    let id := Z.land (match w_scanf w with
                      | Some v => v
                      | None => NO_MODULE_ID
                      end) MAX_MODULES_MASK in
    choose_module_id w NO_MODULE_ID entries modules = id ∧
    (∀ m, array_get modules id = Some m ->
          (can_id m ≠ 0 ->
           select_module w NO_MODULE_ID entries modules = ([], Ret (id, m))) ∧
          (can_id m = 0 ->
           select_module w NO_MODULE_ID entries modules = ([], Exit 1))) ∧
    (∀ (fuel : nat) (o : options) (infile : FILE) (t0 : list event)
       (m : can_frame),
       w_entries w = entries ->
       entries ≠ 0 ->
       getopt_loop (w_opts w) initial_options = ([], Ret o) ->
       bad_invocation w o = false ->
       o_query o = false ->
       o_infile o = Some infile ->
       o_module_id o = NO_MODULE_ID ->
       open_transport w = ([], Ret tt) ->
       module_list_loop w (Z.to_nat MAX_MODULES) 0 (modules_array w)
       = (t0, Ret modules) ->
       array_get modules id = Some m ->
       let j := mkJob (o_dry_run o) id (data_at m 7)
                      (transfer_dlc m (data_at m 7)) in
       main fuel w
       = if (can_id m =? 0) || check_ch_name (f_data infile) (data_at m 7)
         then (EvQueryModules :: t0, Exit 1)
         else (EvQueryModules :: t0
                 ++ trace (flash_session fuel j (o_do_reset o) infile),
               match result (flash_session fuel j (o_do_reset o) infile) with
               | Ret _ => Exit 0
               | Exit status => Exit status
               | Undefined => Undefined
               | OutOfFuel => OutOfFuel
               end)).
Proof.
  intros w entries modules Hent id.
  assert (choose_module_id w NO_MODULE_ID entries modules = id) as Hid.
  { unfold choose_module_id. rewrite Z.eqb_refl.
    by destruct (Z.eqb_spec entries 1). }
  split; [done|]. split.
  - intros m Hm. unfold select_module. rewrite Hid, Hm.
    split; intros Hcan; by destruct (Z.eqb_spec (can_id m) 0).
  - intros fuel o infile t0 m Hw Hnz Hopt Hinv Hq Hfile Hno Htr Hlist Hm j.
    unfold main. rewrite Hopt. unfold_M. rewrite Hinv, Htr, Hw.
    destruct (Z.eqb_spec entries 0) as [|_]; [done|].
    rewrite Hlist, Hq. unfold select_module. unfold_M.
    rewrite Hno, Hid, Hm.
    destruct (can_id m =? 0); simpl; [by rewrite app_nil_r|].
    rewrite Hfile.
    destruct (check_ch_name (f_data infile) (data_at m 7)); simpl;
      [by rewrite app_nil_r|].
    fold j.
    destruct (flash_session fuel j (o_do_reset o) infile) as [t1 o1].
    destruct o1 as [rds|status| |]; simpl; by rewrite ?app_nil_r.
Qed.

(** C9, at the inputs the claim names.  A module id given with [-i]
    that is not NO_MODULE_ID indexes [modules] as it is: when it lies
    outside the array, the read of [modules[module_id]] is outside the
    array. *)
Theorem cli_module_id_not_range_checked :
  ∀ (w : world) (module_id entries : Z) (modules : list can_frame),
    module_id ≠ NO_MODULE_ID ->
    module_id < 0 ∨ Z.of_nat (length modules) ≤ module_id ->
    choose_module_id w module_id entries modules = module_id ∧
    select_module w module_id entries modules = ([], Undefined).
Proof.
  intros w module_id entries modules Hne Hout.
  assert (choose_module_id w module_id entries modules = module_id) as Hid.
  { unfold choose_module_id. by destruct (Z.eqb_spec module_id NO_MODULE_ID). }
  split; [done|]. unfold select_module, array_get. rewrite Hid.
  destruct (Z.ltb_spec module_id 0); [done|].
  rewrite lookup_ge_None_2 by lia. done.
Qed.

End MainClaims.

(** * The claims on the small platform *)

Section DemoRuns.
#[local] Existing Instance Demo.constants.
#[local] Existing Instance Demo.hardware.
#[local] Existing Instance Demo.crc_array.

Lemma demo_crc_array_wf : crc_array_wf.
Proof. vm_compute. lia. Defined.

Lemma demo_blksz_pos : 0 < BLKSZ.
Proof. reflexivity. Defined.

(** C1 on the first block of [Demo.image], whose CRC array names the
    ranges [0, 2) and [32, 40) of the image: the checksums stored are
    those of the bytes 1, 2 and of the eight bytes 9 of the file. *)
Lemma crc_array_patched_witness :
  ∃ buf' infile',
    write_non_empty Demo.job (fopen Demo.image) 0
                    (take 16 Demo.image ++ [255; 255])
    = ([EvWriteBlock false 2 4096 16 buf' true 6], Ret (Some buf', infile')) ∧
    block_crc buf' 2 0 = Some 3 ∧
    block_crc buf' 2 1 = Some 72.
Proof.
  destruct (@crc_array_patched_only_when_valid
              Demo.constants Demo.hardware Demo.crc_array
              demo_crc_array_wf
              Demo.job (fopen Demo.image) 0 (take 16 Demo.image ++ [255; 255])
              ltac:(vm_compute; discriminate) ltac:(reflexivity))
    as (_ & _ & Hpatch & _).
  destruct (Hpatch 1 2 ltac:(reflexivity) ltac:(reflexivity)
              ltac:(left; reflexivity) ltac:(reflexivity)
              ltac:(vm_compute; lia))
    as (buf' & infile' & Hrun & _ & _ & _ & Hcrc).
  exists buf', infile'. split; [exact Hrun|].
  destruct (Hcrc 0 ltac:(lia)) as (a0 & l0 & Ha0 & Hl0 & Hc0).
  destruct (Hcrc 1 ltac:(lia)) as (a1 & l1 & Ha1 & Hl1 & Hc1).
  vm_compute in Ha0, Hl0, Ha1, Hl1.
  injection Ha0 as <-. injection Hl0 as <-.
  injection Ha1 as <-. injection Hl1 as <-.
  split; [exact Hc0|exact Hc1].
Defined.

Lemma demo_fuel : Z.of_nat (length (f_data (fopen Demo.image))) `div` BLKSZ + 2
                  ≤ Z.of_nat 10.
Proof. vm_compute. discriminate. Defined.

Lemma demo_defined :
  result (write_loop 10 Demo.job (fopen Demo.image) 0) ≠ Undefined.
Proof. vm_compute. discriminate. Defined.

(** C2 on [Demo.image]: the block at offset 16 holds only 0xFF, and the
    log holds the calls for the blocks at 0 and 32 only. *)
Lemma empty_block_never_written_witness :
  ∃ reads,
    write_loop 10 Demo.job (fopen Demo.image) 0
    = (omap (write_event Demo.job) reads, Ret reads) ∧
    ∀ rd, rd ∈ reads ->
      (Forall (fun b => b = 255) (take (Z.to_nat BLKSZ) (br_buf rd))
       ↔ br_sent rd = None) ∧
      (br_sent rd = None ->
       ∀ e, e ∈ omap (write_event Demo.job) reads ->
            write_address e
            ≠ Some (br_offset rd + get_flash_offset (j_hw_type Demo.job))).
Proof.
  exact (empty_block_never_written demo_blksz_pos 10 Demo.job
           (fopen Demo.image) demo_fuel demo_defined).
Defined.



(** What the hypothesis of C3 on the CRC check rules out.  [Demo.short_image]
    is less than one block long and holds a CRC array; [calc_crc16] here
    is [fseek] and [fread], and [fseek] clears the end-of-file indicator
    that the short [fread] of the block had set: the loop goes on and
    reads once more, at offset 16, past the 12 bytes of the image. *)
Example crc_check_in_last_block_reads_on :
  ¬ crc_check_keeps_eof Demo.short_image Demo.job ∧
  ∃ reads,
    result (write_loop 10 Demo.job (fopen Demo.short_image) 0) = Ret reads ∧
    br_offset <$> reads = [0; 16] ∧
    br_sent <$> reads
    = [Some [1; 2; 67; 82; 67; 0; 1; 1; 0; 2; 3; 0; 255; 255; 255; 255; 255; 255];
       None].
Proof.
  split.
  - intros Hkeep.
    specialize (Hkeep 0 _ _ ltac:(lia) ltac:(vm_compute; reflexivity)).
    vm_compute in Hkeep. discriminate.
  - eexists. split; [vm_compute; reflexivity|]. by vm_compute.
Qed.


(** C10 on [Demo.image_crc_at_0] and hardware type 2, whose CRC start
    position is 0: the block goes out as read, CRC array and all. *)
Lemma no_patch_without_crc_startpos_witness :
  (∀ foffset infile buf,
     check_crc_array (get_crc_startpos (j_hw_type Demo.job_no_crc))
                     foffset infile buf
     = Ret (buf, infile)) ∧
  ∃ reads,
    write_loop 10 Demo.job_no_crc (fopen Demo.image_crc_at_0) 0
    = (omap (write_event Demo.job_no_crc) reads, Ret reads) ∧
    Forall (fun rd => br_sent rd = None ∨ br_sent rd = Some (br_buf rd)) reads.
Proof.
  exact (proj1 (@no_patch_without_crc_startpos
                  Demo.constants Demo.hardware Demo.crc_array
                  demo_blksz_pos 10 Demo.job_no_crc (fopen Demo.image_crc_at_0)
                  ltac:(vm_compute; discriminate))
               eq_refl).
Defined.



(** C7 on [Demo.session]: two modules, no [-i], and [scanf] stores 1. *)
Lemma ambiguous_module_is_asked_for_witness :
  choose_module_id Demo.session NO_MODULE_ID 2 Demo.modules = 1 ∧
  select_module Demo.session NO_MODULE_ID 2 Demo.modules
  = ([], Ret (1, mkFrame 2023 0 [0; 0; 0; 0; 0; 0; 0; 1])) ∧
  main 10 Demo.session
  = (EvQueryModules :: [EvGetStatus 1; EvGetStatus 2]
       ++ trace (flash_session 10 (mkJob false 1 1 8) false (fopen Demo.image)),
     Exit 0).
Proof.
  destruct (@ambiguous_module_is_asked_for
              Demo.constants Demo.hardware Demo.crc_array
              Demo.session 2 Demo.modules
              ltac:(discriminate)) as (Hid & Hsel & Hmain).
  split; [exact Hid|]. split.
  - exact (proj1 (Hsel (mkFrame 2023 0 [0; 0; 0; 0; 0; 0; 0; 1]) eq_refl)
                 ltac:(discriminate)).
  - rewrite (Hmain 10%nat
               (mkOptions (Some (fopen Demo.image)) false false false (-1))
               (fopen Demo.image) [EvGetStatus 1; EvGetStatus 2]
               (mkFrame 2023 0 [0; 0; 0; 0; 0; 0; 0; 1])
               eq_refl ltac:(discriminate) eq_refl eq_refl eq_refl eq_refl
               eq_refl eq_refl eq_refl eq_refl).
    reflexivity.
Defined.

(** The claim C7 as it is written fails on [Demo.session]: two modules
    are found, no module id is given, and the session writes the image
    to the module in slot 1 and ends with status 0. *)
Lemma several_modules_session_goes_on :
  ¬ (∀ (fuel : nat) (w : world) (o : options),
       result (getopt_loop (w_opts w) initial_options) = Ret o ->
       o_query o = false ->
       o_module_id o = NO_MODULE_ID ->
       1 < w_entries w ->
       Forall (fun e => mutating e = false) (trace (main fuel w)) ∧
       ∃ status, result (main fuel w) = Exit status ∧ status ≠ 0).
Proof.
  intros Hclaim.
  destruct (Hclaim 10%nat Demo.session _
              eq_refl eq_refl eq_refl ltac:(vm_compute; reflexivity))
    as (_ & status & Hres & Hne).
  vm_compute in Hres. injection Hres as <-. done.
Qed.

(** The claim C6 as it is written fails on [Demo.session]: the queue
    holds 500 frames, which does not exceed 500, and [main] goes on to
    the bus. *)
Lemma queue_of_500_frames_is_accepted :
  ¬ (∀ (fuel : nat) (w : world),
       trace (main fuel w) ≠ [] ->
       ∃ qlen, w_txqlen w = Some qlen ∧ PCF_MIN_TX_QUEUE < qlen).
Proof.
  intros Hclaim.
  destruct (Hclaim 10%nat Demo.session ltac:(vm_compute; discriminate))
    as (qlen & Hq & Hlt).
  injection Hq as <-. vm_compute in Hlt. discriminate.
Qed.

(** C8 on [Demo.session_no_image], [pcanflash can0]: status 0. *)
Lemma usage_error_returns_zero_witness :
  main 10 Demo.session_no_image = ([], Exit 0).
Proof.
  exact (@usage_error_returns_zero
           Demo.constants Demo.hardware Demo.crc_array
           10 Demo.session_no_image initial_options eq_refl
           (or_introl (conj eq_refl eq_refl))).
Defined.

(** C9 on the four slots of the small platform and [-i 4]: [main] reads
    [modules[4]]. *)
Lemma cli_module_id_not_range_checked_witness :
  choose_module_id Demo.session_i4 4 2 Demo.modules = 4 ∧
  select_module Demo.session_i4 4 2 Demo.modules = ([], Undefined).
Proof.
  exact (@cli_module_id_not_range_checked
           Demo.constants Demo.session_i4 4 2 Demo.modules
           ltac:(discriminate) ltac:(right; vm_compute; discriminate)).
Defined.

(** [main] on [Demo.session_i4]: the module list is printed, then the
    read outside [modules]. *)
Example main_with_module_id_4 :
  main 10 Demo.session_i4
  = ([EvQueryModules; EvGetStatus 1; EvGetStatus 2], Undefined).
Proof. by vm_compute. Qed.

End DemoRuns.

(** * Further properties of [main] *)

(** ** The options (lines 86-123) *)

Section OptionFacts.
Context `{Constants, HardwareTable, CrcArray}.

Lemma getopt_loop_refuses (opts : list option_arg) :
  ∀ o, ¬ Forall accepted opts -> getopt_loop opts o = ([], Exit 1).
Proof.
  induction opts as [|a opts IH]; intros o Hbad.
  - destruct Hbad. constructor.
  - assert (accepted a -> ¬ Forall accepted opts) as Hrest.
    { intros Ha Hall. apply Hbad. by constructor. }
    destruct a as [[bytes|]|v| | | |]; simpl; try done;
      apply IH, Hrest; by split.
Qed.

(** X1.  An option that [getopt] does not know, or a [-f] whose file
    cannot be opened, ends [main] with status 1 wherever it stands on
    the command line, before anything is sent. *)
Theorem bad_option_exits_with_1 :
  ∀ (fuel : nat) (w : world),
    OptOther ∈ w_opts w ∨ OptF None ∈ w_opts w ->
    main fuel w = ([], Exit 1).
Proof.
  intros fuel w Hbad. unfold main.
  rewrite getopt_loop_refuses; [done|].
  rewrite Forall_forall. intros Hall.
  destruct Hbad as [Hin|Hin]; apply Hall in Hin; destruct Hin; done.
Qed.

(** X2.  When every option is accepted, the loop over the options ends
    without a call: [-q], [-r] and [-d] are set if and only if they were
    set before or the option occurs, in whatever order and however
    often; a stream is there if and only if one was there or [-f]
    occurs. *)
Theorem getopt_flags_accumulate :
  ∀ (opts : list option_arg) (o : options),
    Forall accepted opts ->
    ∃ o',
      getopt_loop opts o = ([], Ret o') ∧
      (o_query o' = true ↔ o_query o = true ∨ OptQ ∈ opts) ∧
      (o_do_reset o' = true ↔ o_do_reset o = true ∨ OptR ∈ opts) ∧
      (o_dry_run o' = true ↔ o_dry_run o = true ∨ OptD ∈ opts) ∧
      (is_Some (o_infile o')
       ↔ is_Some (o_infile o) ∨ ∃ bytes, OptF (Some bytes) ∈ opts).
Proof.
  intros opts. induction opts as [|a opts IH]; intros o Hall.
  - exists o. split; [done|].
    repeat split; try tauto; try (intros [?|Hin]; [done|by apply elem_of_nil in Hin]).
    intros [?|[bytes Hin]]; [done|by apply elem_of_nil in Hin].
  - apply Forall_cons in Hall as [[Ha1 Ha2] Hall].
    assert (∀ x, x ≠ a -> (x ∈ a :: opts ↔ x ∈ opts)) as Hother.
    { intros x Hx. rewrite elem_of_cons. tauto. }
    assert (∀ P : Prop, P ∨ a ∈ a :: opts) as Hhere
      by (intros P; right; apply list_elem_of_here).
    assert (∀ b, OptF (Some b) ∈ opts -> OptF (Some b) ∈ a :: opts) as Hthere
      by (intros b Hb; apply elem_of_cons; by right).
    destruct a as [[bytes|]|v| | | |]; try done; cbn [getopt_loop];
      (edestruct IH as (o' & -> & Hq & Hr & Hd & Hf); [exact Hall|]);
      exists o'; (split; [done|]); simpl in *;
      rewrite Hq, Hr, Hd, Hf;
      rewrite ?(Hother OptQ), ?(Hother OptR), ?(Hother OptD) by done;
      split_and!; try tauto;
      try (split; [intros _; apply Hhere|intros _; by left]).
    + split; intros _; [right; exists bytes; apply list_elem_of_here|].
      left. by eexists.
    + split; (intros [?|[b Hb]]; [by left|right; exists b]); [by apply Hthere|].
      by apply elem_of_cons in Hb as [?|?].
    + split; (intros [?|[b Hb]]; [by left|right; exists b]); [by apply Hthere|].
      by apply elem_of_cons in Hb as [?|?].
    + split; (intros [?|[b Hb]]; [by left|right; exists b]); [by apply Hthere|].
      by apply elem_of_cons in Hb as [?|?].
    + split; (intros [?|[b Hb]]; [by left|right; exists b]); [by apply Hthere|].
      by apply elem_of_cons in Hb as [?|?].
Qed.

End OptionFacts.

(** ** The module list (lines 165-213) *)

Section DiscoveryFacts.
Context `{Constants, HardwareTable, CrcArray}.

Lemma data_at_set_data_same (m : can_frame) (k : nat) (v : Z) :
  (k < 8)%nat -> data_at (set_data m k v) k = v.
Proof.
  intros Hk. unfold data_at, set_data. cbn [data].
  rewrite lookup_take, decide_True by done.
  rewrite list_lookup_insert_eq; [done|].
  rewrite length_take, length_app, length_replicate. lia.
Qed.

Lemma data_at_set_data_other (m : can_frame) (k p : nat) (v : Z) :
  k ≠ p -> data_at (set_data m k v) p = data_at m p.
Proof.
  intros Hne. unfold data_at, set_data. cbn [data].
  rewrite !lookup_take. case_decide; [|done].
  rewrite list_lookup_insert_ne by done.
  rewrite lookup_take, decide_True by done.
  destruct (decide (p < length (data m))%nat).
  - by rewrite lookup_app_l.
  - rewrite lookup_app_r by lia. rewrite lookup_replicate_2 by lia.
    rewrite lookup_ge_None_2 by lia. done.
Qed.

Lemma length_modules_array (w : world) :
  length (modules_array w) = Z.to_nat MAX_MODULES.
Proof.
  unfold modules_array.
  rewrite length_take, length_app, length_replicate. lia.
Qed.

(** What a pass over [n] slots from slot [i] on leaves behind when it
    comes to its end. *)
Lemma module_list_loop_spec (w : world) (n : nat) :
  ∀ (i : Z) (modules modules' : list can_frame) (t : list event),
    0 ≤ i ->
    module_list_loop w n i modules = (t, Ret modules') ->
    length modules' = length modules ∧
    t = flat_map (probe_calls w)
                 (found_slots (take n (drop (Z.to_nat i) modules)) i) ∧
    (∀ (k : nat) m, modules !! k = Some m ->
       (k < Z.to_nat i)%nat ∨ (Z.to_nat i + n ≤ k)%nat ∨ can_id m = 0 ->
       modules' !! k = Some m) ∧
    (∀ (k : nat) m, modules !! k = Some m ->
       (Z.to_nat i ≤ k < Z.to_nat i + n)%nat -> can_id m ≠ 0 ->
       ∃ m1 cf1,
         modules' !! k = Some (set_data m1 7 (data_at cf1 3)) ∧
         check_flash_id_type (data_at cf1 3) (data_at cf1 4) = false ∧
         (if wants_json w (Z.of_nat k)
          then w_json w (Z.of_nat k) m (w_status w (Z.of_nat k)) = Some (m1, cf1)
          else (m1, cf1) = (m, w_status w (Z.of_nat k)))).
Proof.
  induction n as [|n IH]; intros i modules modules' t Hi Hrun.
  - injection Hrun as <- <-. rewrite take_0.
    split; [done|]. split; [done|]. split; [done|]. intros; lia.
  - cbn [module_list_loop] in Hrun. unfold array_get in Hrun.
    destruct (Z.ltb_spec i 0); [lia|].
    destruct (modules !! Z.to_nat i) as [m0|] eqn:Hm0; [|done].
    assert (Z.to_nat (i + 1) = S (Z.to_nat i)) as Hsucc by lia.
    rewrite (drop_S _ _ _ Hm0). rewrite firstn_cons. cbn [found_slots].
    destruct (Z.eqb_spec (can_id m0) 0) as [Hz|Hnz].
    + destruct (IH (i + 1) modules modules' t ltac:(lia) Hrun)
        as (Hlen & Hq & Hkeep & Hnew).
      rewrite Hsucc in *.
      split; [done|]. split; [done|]. split.
      * intros k m Hk Hc. apply Hkeep; [done|]. lia.
      * intros k m Hk Hr Hc.
        destruct (decide (k = Z.to_nat i)) as [->|Hne]; [congruence|].
        apply Hnew; [done|lia|done].
    + unfold_M.
      set (cf := w_status w i) in *.
      assert (∃ tj m1 cf1 t',
                 t = EvGetStatus i :: tj ++ t' ∧
                 tj = (if wants_json w i then [EvGetJsonConfig i] else []) ∧
                 check_flash_id_type (data_at cf1 3) (data_at cf1 4) = false ∧
                 (if wants_json w i
                  then w_json w i m0 cf = Some (m1, cf1)
                  else (m1, cf1) = (m0, cf)) ∧
                 module_list_loop w n (i + 1)
                   (<[Z.to_nat i := set_data m1 7 (data_at cf1 3)]> modules)
                 = (t', Ret modules')) as (tj & m1 & cf1 & t' & -> & Htj & Hchk & Hjs & Hrest).
      { unfold wants_json. fold cf.
        destruct ((data_at cf 3 =? 250) || (data_at cf 4 =? 250)).
        - destruct (w_json w i m0 cf) as [[m1 cf1]|]; [|done].
          simpl in Hrun.
          destruct (check_flash_id_type (data_at cf1 3) (data_at cf1 4)) eqn:Hchk;
            [done|].
          destruct (module_list_loop w n (i + 1) _) as [t' o'] eqn:Hrest.
          destruct o'; try done. injection Hrun as <- <-.
          by exists [EvGetJsonConfig i], m1, cf1, t'.
        - simpl in Hrun.
          destruct (check_flash_id_type (data_at cf 3) (data_at cf 4)) eqn:Hchk;
            [done|].
          destruct (module_list_loop w n (i + 1) _) as [t' o'] eqn:Hrest.
          destruct o'; try done. injection Hrun as <- <-.
          by exists [], m0, cf, t'. }
      destruct (IH (i + 1) _ modules' t' ltac:(lia) Hrest)
        as (Hlen & Hq & Hkeep & Hnew).
      rewrite Hsucc in *. rewrite length_insert in Hlen.
      rewrite drop_insert_lt in Hq by lia.
      apply lookup_lt_Some in Hm0 as Hlt.
      split; [done|]. split; [|split].
      * cbn [flat_map]. unfold probe_calls at 1. by rewrite <- Hq, Htj.
      * intros k m Hk Hc.
        assert (k ≠ Z.to_nat i) as Hne.
        { intros ->. destruct Hc as [?|[?|?]]; [lia|lia|congruence]. }
        apply Hkeep; [by rewrite list_lookup_insert_ne|lia].
      * intros k m Hk Hr Hc.
        destruct (decide (k = Z.to_nat i)) as [->|Hne].
        -- rewrite Z2Nat.id by lia. fold cf.
           assert (m = m0) as -> by congruence.
           exists m1, cf1. split; [|done].
           apply Hkeep; [by apply list_lookup_insert_eq|lia].
        -- apply Hnew; [by rewrite list_lookup_insert_ne|lia|done].
Qed.

(** Whatever way the loop ends, its log is a beginning of the calls
    for the modules found. *)
Lemma module_list_loop_prefix (w : world) (n : nat) :
  ∀ (i : Z) (modules : list can_frame),
    0 ≤ i ->
    trace (module_list_loop w n i modules)
    `prefix_of` flat_map (probe_calls w)
                  (found_slots (take n (drop (Z.to_nat i) modules)) i).
Proof.
  induction n as [|n IH]; intros i modules Hi; [apply prefix_nil|].
  cbn [module_list_loop]. unfold array_get.
  destruct (Z.ltb_spec i 0); [lia|].
  destruct (modules !! Z.to_nat i) as [m0|] eqn:Hm0; [|apply prefix_nil].
  assert (Z.to_nat (i + 1) = S (Z.to_nat i)) as Hsucc by lia.
  rewrite (drop_S _ _ _ Hm0). rewrite firstn_cons. cbn [found_slots].
  destruct (Z.eqb_spec (can_id m0) 0) as [Hz|Hnz].
  { rewrite <- Hsucc. apply IH. lia. }
  cbn [flat_map]. unfold probe_calls at 1, wants_json. unfold_M.
  set (cf := w_status w i).
  assert (∀ m1 v,
            trace (module_list_loop w n (i + 1) (<[Z.to_nat i := set_data m1 7 v]> modules))
            `prefix_of` flat_map (probe_calls w)
                          (found_slots (take n (drop (S (Z.to_nat i)) modules)) (i + 1)))
    as Hrest.
  { intros m1 v. specialize (IH (i + 1) (<[Z.to_nat i := set_data m1 7 v]> modules)).
    rewrite Hsucc, drop_insert_lt in IH by lia. apply IH. lia. }
  destruct ((data_at cf 3 =? 250) || (data_at cf 4 =? 250)).
  - destruct (w_json w i m0 cf) as [[m1 cf1]|]; simpl;
      [|apply prefix_cons, prefix_cons, prefix_nil].
    destruct (check_flash_id_type (data_at cf1 3) (data_at cf1 4));
      [apply prefix_cons, prefix_cons, prefix_nil|].
    specialize (Hrest m1 (data_at cf1 3)).
    destruct (module_list_loop w n (i + 1) _) as [t' o'].
    destruct o'; simpl in *; rewrite ?app_nil_r;
      by apply prefix_cons, prefix_cons.
  - simpl.
    destruct (check_flash_id_type (data_at cf 3) (data_at cf 4));
      [apply prefix_cons, prefix_nil|].
    specialize (Hrest m0 (data_at cf 3)).
    destruct (module_list_loop w n (i + 1) _) as [t' o'].
    destruct o'; simpl in *; rewrite ?app_nil_r; by apply prefix_cons.
Qed.

(** With the slots inside the array, the loop comes to its end or
    stops the program with status 1. *)
Lemma module_list_loop_outcome (w : world) (n : nat) :
  ∀ (i : Z) (modules : list can_frame),
    0 ≤ i ->
    (Z.to_nat i + n ≤ length modules)%nat ->
    (∃ modules', result (module_list_loop w n i modules) = Ret modules')
    ∨ result (module_list_loop w n i modules) = Exit 1.
Proof.
  induction n as [|n IH]; intros i modules Hi Hlen; [left; by eexists|].
  cbn [module_list_loop]. unfold array_get.
  destruct (Z.ltb_spec i 0); [lia|].
  destruct (lookup_lt_is_Some_2 modules (Z.to_nat i)) as [m0 ->]; [lia|].
  assert (∀ ms, length ms = length modules ->
            (∃ modules', result (module_list_loop w n (i + 1) ms) = Ret modules')
            ∨ result (module_list_loop w n (i + 1) ms) = Exit 1) as Hrest.
  { intros ms Hms. apply IH; lia. }
  destruct (can_id m0 =? 0); [by apply Hrest|].
  unfold_M.
  destruct ((data_at (w_status w i) 3 =? 250) || (data_at (w_status w i) 4 =? 250)).
  - destruct (w_json w i m0 (w_status w i)) as [[m1 cf1]|]; simpl; [|by right].
    destruct (check_flash_id_type (data_at cf1 3) (data_at cf1 4)); [by right|].
    specialize (Hrest (<[Z.to_nat i := set_data m1 7 (data_at cf1 3)]> modules)
                      (length_insert _ _ _)).
    destruct (module_list_loop w n (i + 1) _) as [t' o'].
    destruct o'; simpl in *; done.
  - simpl.
    destruct (check_flash_id_type (data_at (w_status w i) 3)
                                  (data_at (w_status w i) 4)); [by right|].
    specialize (Hrest (<[Z.to_nat i := set_data m0 7 (data_at (w_status w i) 3)]> modules)
                      (length_insert _ _ _)).
    destruct (module_list_loop w n (i + 1) _) as [t' o'].
    destruct o'; simpl in *; done.
Qed.

Lemma getopt_loop_keeps_query (opts : list option_arg) :
  ∀ (o o' : options),
    result (getopt_loop opts o) = Ret o' ->
    o_query o = true ∨ OptQ ∈ opts ->
    o_query o' = true.
Proof.
  induction opts as [|a opts IH]; intros o o' Hrun Hq.
  - injection Hrun as <-. destruct Hq as [?|Hin]; [done|].
    by apply elem_of_nil in Hin.
  - destruct a as [[bytes|]|v| | | |]; cbn [getopt_loop] in Hrun; try done;
      (eapply IH; [exact Hrun|]); simpl;
      (destruct Hq as [Hq|Hin];
       [by left|apply elem_of_cons in Hin as [Heq|Hin];
                  [try done; by left|by right]]).
Qed.

Lemma getopt_loop_outcome (opts : list option_arg) :
  ∀ (o : options),
    (∃ o', getopt_loop opts o = ([], Ret o'))
    ∨ getopt_loop opts o = ([], Exit 1).
Proof.
  induction opts as [|[[bytes|]|v| | | |] opts IH]; intros o; simpl;
    try apply IH; try (by right). left. by eexists.
Qed.

(** X3.  The calls of the module list: for every slot of [modules]
    that holds a module, in the order of the slots, one [get_status]
    and, if the status has hardware type or flash type 250, one
    [get_json_config] right after it; nothing for the other slots.
    When the loop stops the program, its calls are a beginning of
    these. *)
Theorem module_list_calls :
  ∀ (w : world),
    let run := module_list_loop w (Z.to_nat MAX_MODULES) 0 (modules_array w) in
    let calls := flat_map (probe_calls w) (found_slots (modules_array w) 0) in
    trace run `prefix_of` calls ∧
    (∀ modules', result run = Ret modules' -> trace run = calls).
Proof.
  intros w run calls.
  assert (take (Z.to_nat MAX_MODULES) (drop (Z.to_nat 0) (modules_array w))
          = modules_array w) as Hall.
  { change (Z.to_nat 0) with 0%nat. rewrite drop_0.
    apply take_ge. by rewrite length_modules_array. }
  split.
  - pose proof (module_list_loop_prefix w (Z.to_nat MAX_MODULES) 0
                  (modules_array w) ltac:(lia)) as Hp.
    by rewrite Hall in Hp.
  - intros modules' Hret. subst run.
    destruct (module_list_loop w _ 0 _) as [t o] eqn:Hrun.
    simpl in Hret. subst o.
    destruct (module_list_loop_spec w _ 0 _ _ _ ltac:(lia) Hrun) as (_ & -> & _).
    subst calls. by rewrite Hall.
Qed.

(** X4.  The array [modules] after the module list: it has its
    MAX_MODULES entries; a slot that holds no module is as
    [query_modules] left it; the entry of a module found has in
    [data[7]] a hardware type that [check_flash_id_type] accepted with
    the flash type of the status; unless the JSON configuration was
    read, that is byte 3 of the status frame, and the identifier, the
    length and the other data bytes of the entry are unchanged. *)
Theorem module_list_records_hw_type :
  ∀ (w : world) (t : list event) (modules' : list can_frame),
    module_list_loop w (Z.to_nat MAX_MODULES) 0 (modules_array w)
    = (t, Ret modules') ->
    length modules' = Z.to_nat MAX_MODULES ∧
    ∀ (k : nat) (m : can_frame),
      modules_array w !! k = Some m ->
      (can_id m = 0 -> modules' !! k = Some m) ∧
      (can_id m ≠ 0 ->
       ∃ m', modules' !! k = Some m' ∧
             (∃ flash_type,
                check_flash_id_type (data_at m' 7) flash_type = false) ∧
             (wants_json w (Z.of_nat k) = false ->
              data_at m' 7 = data_at (w_status w (Z.of_nat k)) 3 ∧
              can_id m' = can_id m ∧ can_dlc m' = can_dlc m ∧
              ∀ p, p ≠ 7%nat -> data_at m' p = data_at m p)).
Proof.
  intros w t modules' Hrun.
  destruct (module_list_loop_spec w _ 0 _ _ _ ltac:(lia) Hrun)
    as (Hlen & _ & Hkeep & Hnew).
  rewrite length_modules_array in Hlen. split; [done|].
  intros k m Hk. split.
  - intros Hz. apply Hkeep; [done|by auto].
  - intros Hnz. apply lookup_lt_Some in Hk as Hlt.
    rewrite length_modules_array in Hlt.
    destruct (Hnew k m Hk ltac:(lia) Hnz) as (m1 & cf1 & Hm' & Hchk & Hjs).
    exists (set_data m1 7 (data_at cf1 3)). split; [done|].
    rewrite data_at_set_data_same by lia. split; [by eexists|].
    intros Hno. rewrite Hno in Hjs. injection Hjs as -> ->.
    split; [done|]. split; [done|]. split; [done|].
    intros p Hp. by apply data_at_set_data_other.
Qed.

(** X5.  With [-q] among the options, wherever it stands, [main] sends
    no command that changes a module: its calls are [query_modules],
    [get_status] and [get_json_config] only, and it ends with status 0
    or 1. *)
Theorem query_mode_changes_nothing :
  ∀ (fuel : nat) (w : world),
    OptQ ∈ w_opts w ->
    Forall (fun e => mutating e = false) (trace (main fuel w)) ∧
    (result (main fuel w) = Exit 0 ∨ result (main fuel w) = Exit 1).
Proof.
  intros fuel w Hq. unfold main.
  pose proof (getopt_loop_keeps_query (w_opts w) initial_options) as Hkeep.
  destruct (getopt_loop_outcome (w_opts w) initial_options) as [[o Hrun]|Hrun];
    rewrite Hrun in *; unfold_M; [|split; [by constructor|by right]].
  specialize (Hkeep o eq_refl (or_intror Hq)).
  destruct (bad_invocation w o); [split; [by constructor|by left]|].
  destruct (open_transport_cases w) as [(-> & _)|(-> & _)];
    [|split; [by constructor|by right]].
  destruct (w_entries w =? 0); [split; [by repeat constructor|by right]|].
  pose proof (module_list_loop_quiet w (Z.to_nat MAX_MODULES) 0 (modules_array w))
    as Hquiet.
  pose proof (module_list_loop_outcome w (Z.to_nat MAX_MODULES) 0 (modules_array w)
                ltac:(lia) ltac:(rewrite length_modules_array; lia)) as Hout.
  destruct (module_list_loop w _ 0 _) as [t0 r0]. simpl in Hquiet, Hout.
  destruct Hout as [[modules' ->]| ->].
  - rewrite Hkeep. simpl. rewrite app_nil_r.
    split; [constructor; [done|exact Hquiet]|by left].
  - simpl. split; [constructor; [done|exact Hquiet]|by right].
Qed.

End DiscoveryFacts.

(** ** The choice of the module (lines 215-234) *)

Section SelectionFacts.
Context `{Constants, HardwareTable, CrcArray}.

Lemma first_module_least (modules : list can_frame) :
  ∀ (k : nat) (m : can_frame) (i module_id : Z),
    modules !! k = Some m ->
    can_id m ≠ 0 ->
    (∀ (k' : nat) m', (k' < k)%nat -> modules !! k' = Some m' -> can_id m' = 0) ->
    first_module modules i module_id = i + Z.of_nat k.
Proof.
  induction modules as [|m0 modules IH]; intros k m i module_id Hk Hnz Hleast;
    [done|].
  cbn [first_module]. destruct k as [|k].
  - injection Hk as ->. destruct (Z.eqb_spec (can_id m) 0); [done|lia].
  - rewrite (Hleast 0%nat m0), Z.eqb_refl by (lia || done).
    rewrite (IH k m (i + 1) module_id); [lia|done..|].
    intros k' m' Hlt Hk'. apply (Hleast (S k') m'); [lia|done].
Qed.

Lemma first_module_none (modules : list can_frame) :
  ∀ (i module_id : Z),
    Forall (fun m => can_id m = 0) modules ->
    first_module modules i module_id = module_id.
Proof.
  induction modules as [|m0 modules IH]; intros i module_id Hall; [done|].
  apply Forall_cons in Hall as [Hz Hall].
  cbn [first_module]. rewrite Hz, Z.eqb_refl. by apply IH.
Qed.

Lemma land_mask_bounds (x mask : Z) : 0 ≤ mask -> 0 ≤ Z.land x mask ≤ mask.
Proof.
  intros Hmask. apply Z.ldiff_le; [done|].
  apply Z.bits_inj'. intros n Hn.
  rewrite Z.ldiff_spec, Z.land_spec, Z.bits_0.
  by destruct (Z.testbit x n), (Z.testbit mask n).
Qed.

(** X6.  One module answered and no [-i]: the session goes on with the
    first slot of [modules] that holds a module, whatever the other
    slots hold.  If no slot holds one, [module_id] stays NO_MODULE_ID
    and is used as the index as it is. *)
Theorem single_module_is_taken :
  ∀ (w : world) (modules : list can_frame),
    (∀ (k : nat) (m : can_frame),
       modules !! k = Some m ->
       can_id m ≠ 0 ->
       (∀ (k' : nat) m', (k' < k)%nat -> modules !! k' = Some m' ->
                         can_id m' = 0) ->
       select_module w NO_MODULE_ID 1 modules = ([], Ret (Z.of_nat k, m)))
    ∧ (Forall (fun m => can_id m = 0) modules ->
       choose_module_id w NO_MODULE_ID 1 modules = NO_MODULE_ID).
Proof.
  intros w modules. split.
  - intros k m Hk Hnz Hleast.
    unfold select_module, choose_module_id. rewrite !Z.eqb_refl.
    rewrite (first_module_least modules k m 0 NO_MODULE_ID Hk Hnz Hleast).
    rewrite Z.add_0_l. unfold array_get.
    destruct (Z.ltb_spec (Z.of_nat k) 0); [lia|]. rewrite Nat2Z.id, Hk.
    by destruct (Z.eqb_spec (can_id m) 0).
  - intros Hall. unfold choose_module_id. rewrite !Z.eqb_refl.
    by apply first_module_none.
Qed.

(** X7.  A module id typed in at the question is cut down to a slot of
    [modules]: with a mask that is not negative and below the size of the
    array, the index lies in 0 .. MAX_MODULES_MASK whatever value [scanf]
    stored (and also when it stored none), the read of
    [modules[module_id]] is inside the array, and the session goes on
    with that entry or ends with status 1. *)
Theorem typed_module_id_stays_in_array :
  ∀ (w : world) (entries : Z) (modules : list can_frame),
    entries ≠ 1 ->
    0 ≤ MAX_MODULES_MASK < Z.of_nat (length modules) ->
    let id := choose_module_id w NO_MODULE_ID entries modules in
    0 ≤ id ≤ MAX_MODULES_MASK ∧
    ∃ m, modules !! Z.to_nat id = Some m ∧
         select_module w NO_MODULE_ID entries modules
         = if can_id m =? 0 then ([], Exit 1) else ([], Ret (id, m)).
Proof.
  intros w entries modules Hent Hmask id.
  assert (0 ≤ id ≤ MAX_MODULES_MASK) as Hid.
  { subst id. unfold choose_module_id. rewrite Z.eqb_refl.
    destruct (Z.eqb_spec entries 1); [done|].
    apply land_mask_bounds. lia. }
  split; [done|].
  destruct (lookup_lt_is_Some_2 modules (Z.to_nat id)) as [m Hm]; [lia|].
  exists m. split; [done|].
  unfold select_module, array_get. fold id.
  destruct (Z.ltb_spec id 0); [lia|]. rewrite Hm.
  by destruct (can_id m =? 0).
Qed.

End SelectionFacts.

(** ** The flashing session (lines 255-354) *)

Section SessionFacts.
Context `{Constants, HardwareTable, CrcArray}.

Lemma write_loop_addressed (fuel : nat) (j : flash_job) :
  ∀ (f : FILE) (foffset : Z),
    Forall (addressed_to (j_module_id j) (j_dry_run j))
           (trace (write_loop fuel j f foffset)).
Proof.
  induction fuel as [|fuel IH]; intros f foffset; [by constructor|].
  cbn [write_loop]. destruct (read_block f foffset) as [[buf f1]|];
    [|by constructor].
  unfold mbind, M_bind, bind, mret, M_ret, ret.
  rewrite write_non_empty_cases.
  assert (∀ buf', addressed_to (j_module_id j) (j_dry_run j)
            (EvWriteBlock (j_dry_run j) (j_module_id j)
               (foffset + get_flash_offset (j_hw_type j)) BLKSZ buf'
               (has_hw_flags (j_hw_type j) FDATA_INVERT) (j_dlc j))) as Hw.
  { intros buf'. split; [done|by right]. }
  destruct (scan_block buf =? BLKSZ).
  - destruct (feof f1); [by constructor|].
    specialize (IH f1 (foffset + BLKSZ)).
    destruct (write_loop fuel j f1 _) as [t' [rds| | |]]; simpl in *;
      by rewrite ?app_nil_r.
  - destruct (check_crc_array _ foffset f1 buf) as [[buf' f2]| | |];
      try by constructor.
    destruct (feof f2); [by repeat constructor|].
    specialize (IH f2 (foffset + BLKSZ)).
    destruct (write_loop fuel j f2 _) as [t' [rds| | |]]; simpl in *;
      rewrite ?app_nil_r; by constructor.
Qed.

Lemma erase_loop_addressed (n : nat) (j : flash_job) (i : Z) :
  Forall (addressed_to (j_module_id j) (j_dry_run j)) (trace (erase_loop n j i)).
Proof.
  rewrite erase_loop_trace. simpl. apply Forall_fmap, Forall_true.
  intros k. split; [done|by right].
Qed.

Lemma flash_session_addressed (fuel : nat) (j : flash_job) (do_reset : bool)
    (infile : FILE) :
  Forall (addressed_to (j_module_id j) (j_dry_run j))
         (trace (flash_session fuel j do_reset infile)).
Proof.
  assert (∀ e, event_module e = Some (j_module_id j) ->
               event_dry_run e = None ->
               addressed_to (j_module_id j) (j_dry_run j) e) as Hplain.
  { intros e He Hd. split; [done|by left]. }
  assert (Forall (addressed_to (j_module_id j) (j_dry_run j))
                 (trace (switch_phase j))) as Hsw.
  { unfold switch_phase. destruct (has_hw_flags _ _); simpl;
      repeat constructor; by apply Hplain. }
  assert (Forall (addressed_to (j_module_id j) (j_dry_run j))
                 (trace (end_programming_phase j))) as Hend.
  { unfold end_programming_phase. destruct (has_hw_flags _ _); simpl;
      repeat constructor; by apply Hplain. }
  assert (Forall (addressed_to (j_module_id j) (j_dry_run j))
                 (trace (reset_phase j do_reset))) as Hres.
  { unfold reset_phase.
    destruct (has_hw_flags _ RESET_AFTER_FLASH), do_reset; simpl;
      repeat constructor; by apply Hplain. }
  pose proof (erase_loop_addressed
                (Z.to_nat (get_num_flashblocks (j_hw_type j))) j 0) as Her.
  pose proof (write_loop_addressed fuel j infile 0) as Hwr.
  unfold flash_session.
  destruct (switch_phase j) as [t1 [[]| | |]] eqn:E1; simpl in Hsw; try done.
  unfold mbind, M_bind, bind at 1.
  destruct (get_num_flashblocks (j_hw_type j) =? 0);
    [simpl; by rewrite app_nil_r|].
  destruct (erase_loop _ j 0) as [t2 [[]| | |]]; simpl in Her;
    try (simpl; by apply Forall_app).
  unfold bind at 1.
  destruct (write_loop fuel j infile 0) as [t3 [rds| | |]]; simpl in Hwr;
    try (simpl; repeat (apply Forall_app; split); done).
  unfold bind at 1.
  destruct (end_programming_phase j) as [t4 [[]| | |]]; simpl in Hend;
    try (simpl; repeat (apply Forall_app; split); done).
  unfold bind at 1.
  destruct (reset_phase j do_reset) as [t5 [[]| | |]]; simpl in Hres;
    simpl; rewrite ?app_nil_r; repeat (apply Forall_app; split); done.
Qed.

Lemma write_loop_dry_run (fuel : nat) (dry dry' : bool) (id hw dlc : Z) :
  ∀ (f : FILE) (foffset : Z),
    write_loop fuel (mkJob dry id hw dlc) f foffset
    = (with_dry_run dry <$> trace (write_loop fuel (mkJob dry' id hw dlc) f foffset),
       result (write_loop fuel (mkJob dry' id hw dlc) f foffset)).
Proof.
  induction fuel as [|fuel IH]; intros f foffset; [done|].
  cbn [write_loop]. destruct (read_block f foffset) as [[buf f1]|]; [|done].
  unfold mbind, M_bind, bind, mret, M_ret, ret.
  rewrite !write_non_empty_cases. cbn [j_dry_run j_module_id j_hw_type j_dlc].
  destruct (scan_block buf =? BLKSZ).
  - destruct (feof f1); [done|]. rewrite (IH f1 (foffset + BLKSZ)).
    destruct (write_loop fuel (mkJob dry' id hw dlc) f1 _) as [t' [rds| | |]];
      simpl; by rewrite ?app_nil_r, ?fmap_app.
  - destruct (check_crc_array _ foffset f1 buf) as [[buf' f2]| | |]; try done.
    destruct (feof f2); [done|]. rewrite (IH f2 (foffset + BLKSZ)).
    destruct (write_loop fuel (mkJob dry' id hw dlc) f2 _) as [t' [rds| | |]];
      simpl; by rewrite ?app_nil_r, ?fmap_app.
Qed.

(** X8.  The calls of a flashing session for any hardware type.  A
    type without flash blocks ends the session with status 1 after the
    switch into the bootloader, before anything is erased.  A session
    that runs to its end has made, in this order: the switch and its
    status query if the type has SWITCH_TO_BOOTLOADER, the erase calls
    for the indices 0 .. [get_num_flashblocks - 1], the writes of the
    blocks read that were handed on, [end_programming] and its status
    query if the type has END_PROGRAMMING, and the reset; a type without
    a flag never gets the command of that flag. *)
Theorem flash_session_calls :
  0 < BLKSZ ->
  ∀ (fuel : nat) (j : flash_job) (do_reset : bool) (infile : FILE),
    let id := j_module_id j in
    let hw := j_hw_type j in
    let switch := if has_hw_flags hw SWITCH_TO_BOOTLOADER
                  then [EvSwitchToBootloader id; EvGetStatus id] else [] in
    (get_num_flashblocks hw = 0 ->
     flash_session fuel j do_reset infile = (switch, Exit 1))
    ∧ (∀ reads,
         result (flash_session fuel j do_reset infile) = Ret reads ->
         get_num_flashblocks hw ≠ 0 ∧
         trace (flash_session fuel j do_reset infile)
         = switch
           ++ (EvEraseFlashblocks (j_dry_run j) id hw
                 <$> seqZ 0 (get_num_flashblocks hw))
           ++ omap (write_event j) reads
           ++ (if has_hw_flags hw END_PROGRAMMING
               then [EvEndProgramming id; EvGetStatus id] else [])
           ++ (if has_hw_flags hw RESET_AFTER_FLASH || do_reset
               then EvResetModule id
                    :: (if has_hw_flags hw RESET_AFTER_FLASH
                        then [EvGetStatus id] else [])
               else [])).
Proof.
  intros HB fuel j do_reset infile id hw switch. subst id hw switch.
  unfold flash_session, switch_phase, end_programming_phase, reset_phase.
  split.
  - intros ->. destruct (has_hw_flags _ SWITCH_TO_BOOTLOADER); done.
  - intros reads.
    destruct (Z.eqb_spec (get_num_flashblocks (j_hw_type j)) 0) as [Hz|Hnz].
    { destruct (has_hw_flags _ SWITCH_TO_BOOTLOADER); done. }
    unfold_M. rewrite erase_loop_trace.
    replace (seqZ 0 (Z.of_nat (Z.to_nat (get_num_flashblocks (j_hw_type j)))))
      with (seqZ 0 (get_num_flashblocks (j_hw_type j)))
      by (unfold seqZ; by rewrite Nat2Z.id).
    destruct (write_loop fuel j infile 0) as [t o] eqn:Hrun.
    assert (∀ rds, o = Ret rds -> t = omap (write_event j) rds) as Ht.
    { intros rds ->.
      by destruct (write_loop_reads fuel j HB infile 0 t rds) as (-> & _). }
    destruct (has_hw_flags _ SWITCH_TO_BOOTLOADER),
      (has_hw_flags _ END_PROGRAMMING),
      (has_hw_flags _ RESET_AFTER_FLASH), do_reset;
      destruct o as [rds| | |]; simpl; try done;
      intros [= <-]; (split; [done|]);
      rewrite (Ht rds eq_refl), ?app_nil_r, <- ?app_assoc; done.
Qed.

(** X9.  The option [-d] reaches the modules only as the [dry_run]
    argument of [erase_flashblocks] and [write_block]: a dry run makes
    the calls of the run without [-d], with the same blocks and also the
    switch into the bootloader, [end_programming] and the reset, and it
    ends the same way. *)
Theorem dry_run_makes_the_same_calls :
  ∀ (fuel : nat) (dry dry' : bool) (id hw dlc : Z) (do_reset : bool)
    (infile : FILE),
    trace (flash_session fuel (mkJob dry id hw dlc) do_reset infile)
    = with_dry_run dry
        <$> trace (flash_session fuel (mkJob dry' id hw dlc) do_reset infile)
    ∧ result (flash_session fuel (mkJob dry id hw dlc) do_reset infile)
      = result (flash_session fuel (mkJob dry' id hw dlc) do_reset infile).
Proof.
  intros fuel dry dry' id hw dlc do_reset infile.
  unfold flash_session, switch_phase, end_programming_phase, reset_phase.
  unfold_M. rewrite !erase_loop_trace.
  rewrite (write_loop_dry_run fuel dry dry').
  cbn [j_dry_run j_module_id j_hw_type j_dlc].
  assert (∀ l : list Z,
            with_dry_run dry <$> (EvEraseFlashblocks dry' id hw <$> l)
               = EvEraseFlashblocks dry id hw <$> l) as Her.
  { intros l. rewrite <- list_fmap_compose. done. }
  destruct (write_loop fuel (mkJob dry' id hw dlc) infile 0) as [t o].
  destruct (has_hw_flags hw SWITCH_TO_BOOTLOADER),
    (get_num_flashblocks hw =? 0),
    (has_hw_flags hw END_PROGRAMMING),
    (has_hw_flags hw RESET_AFTER_FLASH), do_reset;
    destruct o as [rds| | |]; simpl;
    rewrite ?app_nil_r, ?fmap_app, ?fmap_cons, ?Her; done.
Qed.

End SessionFacts.

(** ** [main] as a whole *)

Section MainFacts.
Context `{Constants, HardwareTable, CrcArray}.

Lemma module_list_loop_probing (w : world) (n : nat) :
  ∀ (i : Z) (modules : list can_frame),
    Forall (fun e => probing e = true) (trace (module_list_loop w n i modules)).
Proof.
  induction n as [|n IH]; intros i modules; [by constructor|].
  cbn [module_list_loop].
  destruct (array_get modules i) as [m|]; [|by constructor].
  destruct (can_id m =? 0); [apply IH|].
  unfold_M. cbn [app].
  destruct ((data_at (w_status w i) 3 =? 250) || (data_at (w_status w i) 4 =? 250)).
  - destruct (w_json w i m (w_status w i)) as [[m1 cf1]|]; simpl;
      [|by repeat constructor].
    destruct (check_flash_id_type (data_at cf1 3) (data_at cf1 4));
      [by repeat constructor|].
    specialize (IH (i + 1) (<[Z.to_nat i:=set_data m1 7 (data_at cf1 3)]> modules)).
    destruct (module_list_loop w n _ _) as [t' o']. simpl in *.
    by repeat constructor.
  - simpl.
    destruct (check_flash_id_type (data_at (w_status w i) 3)
                                  (data_at (w_status w i) 4));
      [by repeat constructor|].
    specialize (IH (i + 1)
                  (<[Z.to_nat i:=set_data m 7 (data_at (w_status w i) 3)]> modules)).
    destruct (module_list_loop w n _ _) as [t' o']. simpl in *.
    by repeat constructor.
Qed.

(** How far [main] gets: it sends nothing, or it stops during or after
    the module list, or it runs the flashing session for the module
    chosen, every check before it having passed. *)
Lemma main_cases (fuel : nat) (w : world) :
  trace (main fuel w) = []
  ∨ (∃ t, trace (main fuel w) = EvQueryModules :: t ∧
          Forall (fun e => probing e = true) t ∧
          (w_entries w = 0 -> t = [] ∧ result (main fuel w) = Exit 1))
  ∨ (∃ o infile modules m t0,
       getopt_loop (w_opts w) initial_options = ([], Ret o) ∧
       bad_invocation w o = false ∧
       o_query o = false ∧
       o_infile o = Some infile ∧
       w_entries w ≠ 0 ∧
       module_list_loop w (Z.to_nat MAX_MODULES) 0 (modules_array w)
       = (t0, Ret modules) ∧
       array_get modules
         (choose_module_id w (o_module_id o) (w_entries w) modules) = Some m ∧
       can_id m ≠ 0 ∧
       check_ch_name (f_data infile) (data_at m 7) = false ∧
       let j := mkJob (o_dry_run o)
                      (choose_module_id w (o_module_id o) (w_entries w) modules)
                      (data_at m 7) (transfer_dlc m (data_at m 7)) in
       trace (main fuel w)
       = EvQueryModules :: t0
         ++ trace (flash_session fuel j (o_do_reset o) infile) ∧
       ∀ reads, result (flash_session fuel j (o_do_reset o) infile) = Ret reads ->
                result (main fuel w) = Exit 0).
Proof.
  unfold main.
  destruct (getopt_loop_outcome (w_opts w) initial_options) as [[o Hopt]|Hopt];
    rewrite Hopt; unfold_M; [|by left].
  destruct (bad_invocation w o) eqn:Hinv; [by left|].
  destruct (open_transport_cases w) as [(-> & _)|(-> & _)]; [|by left].
  destruct (Z.eqb_spec (w_entries w) 0) as [Hz|Hnz].
  { right. left. exists []. split; [done|]. split; [by constructor|done]. }
  pose proof (module_list_loop_probing w (Z.to_nat MAX_MODULES) 0 (modules_array w))
    as Hprobe.
  assert (∀ (t : list event) (r : outcome Z),
            Forall (fun e => probing e = true) t ->
            ∃ t', fst (EvQueryModules :: t, r) = EvQueryModules :: t' ∧
                  Forall (fun e => probing e = true) t' ∧
                  (w_entries w = 0 -> t' = [] ∧ snd (EvQueryModules :: t, r) = Exit 1))
    as Hstop.
  { intros t r Ht. exists t. by split. }
  destruct (module_list_loop w _ 0 _) as [t0 [modules|s| |]] eqn:Hlist;
    simpl in Hprobe; try (right; left; simpl; by apply Hstop).
  destruct (o_query o) eqn:Hquery;
    [right; left; simpl; rewrite ?app_nil_r; by apply Hstop|].
  unfold select_module. unfold_M.
  destruct (array_get modules _) as [m|] eqn:Hm;
    [|right; left; simpl; rewrite ?app_nil_r; by apply Hstop].
  destruct (Z.eqb_spec (can_id m) 0) as [Hcz|Hcnz];
    [right; left; simpl; rewrite ?app_nil_r; by apply Hstop|].
  cbv beta iota zeta.
  destruct (o_infile o) as [infile|] eqn:Hfile;
    [|right; left; simpl; rewrite ?app_nil_r; by apply Hstop].
  cbv beta iota zeta.
  destruct (check_ch_name (f_data infile) (data_at m 7)) eqn:Hch;
    [right; left; simpl; rewrite ?app_nil_r; by apply Hstop|].
  right. right. exists o, infile, modules, m, t0.
  repeat (split; [done|]).
  cbv zeta.
  destruct (flash_session fuel _ (o_do_reset o) infile) as [t1 o1].
  destruct o1 as [rds|s| |]; simpl; rewrite ?app_nil_r; by split.
Qed.

(** X10.  [query_modules] is the first call [main] makes, and it is
    made once; when it reports no module, nothing else is sent and the
    status is 1. *)
Theorem query_modules_comes_first_and_once :
  ∀ (fuel : nat) (w : world),
    trace (main fuel w) = []
    ∨ (∃ t, trace (main fuel w) = EvQueryModules :: t ∧
            (EvQueryModules ∉ t) ∧
            (w_entries w = 0 -> t = [] ∧ result (main fuel w) = Exit 1)).
Proof.
  intros fuel w.
  destruct (main_cases fuel w) as [Hnil|[(t & Ht & Hprobe & Hzero)|Hflash]];
    [by left|right..].
  - exists t. split; [done|]. split; [|done].
    intros Hin. rewrite Forall_forall in Hprobe. by apply Hprobe in Hin.
  - destruct Hflash as (o & infile & modules & m & t0 & _ & _ & _ & _ & Hnz
                        & Hlist & _ & _ & _ & Ht & _).
    eexists. split; [exact Ht|]. split; [|done].
    intros Hin. apply elem_of_app in Hin as [Hin|Hin].
    + pose proof (module_list_loop_probing w (Z.to_nat MAX_MODULES) 0
                    (modules_array w)) as Hprobe.
      rewrite Hlist, Forall_forall in Hprobe. by apply Hprobe in Hin.
    + pose proof (flash_session_addressed fuel
                    (mkJob (o_dry_run o)
                       (choose_module_id w (o_module_id o) (w_entries w) modules)
                       (data_at m 7) (transfer_dlc m (data_at m 7)))
                    (o_do_reset o) infile) as Haddr.
      rewrite Forall_forall in Haddr. by destruct (Haddr _ Hin) as [? _].
Qed.


End MainFacts.

(** ** The write loop (lines 275-327) *)

Section WriteLoopFacts.
Context `{Constants, HardwareTable, CrcArray}.

Lemma fill_buf_lookup_image (image : list Z) (p : nat) (b : Z) :
  0 < BLKSZ ->
  image !! p = Some b ->
  fill_buf (image_range image (Z.of_nat p `div` BLKSZ * BLKSZ) BLKSZ)
    !! Z.to_nat (Z.of_nat p `mod` BLKSZ) = Some b.
Proof.
  intros HB Hp.
  pose proof (Z.mod_pos_bound (Z.of_nat p) BLKSZ HB) as Hr.
  assert (Z.of_nat p = BLKSZ * (Z.of_nat p `div` BLKSZ) + Z.of_nat p `mod` BLKSZ)
    as Hdm by (apply Z.div_mod; lia).
  assert (0 ≤ Z.of_nat p `div` BLKSZ) as Hq by (apply Z.div_pos; lia).
  assert (image_range image (Z.of_nat p `div` BLKSZ * BLKSZ) BLKSZ
            !! Z.to_nat (Z.of_nat p `mod` BLKSZ) = Some b) as Hgot.
  { unfold image_range. rewrite lookup_take_lt by lia.
    rewrite lookup_drop. rewrite <- Hp. f_equal.
    assert (0 ≤ Z.of_nat p `div` BLKSZ * BLKSZ) by nia. lia. }
  unfold fill_buf. rewrite lookup_app_l; [done|].
  by apply lookup_lt_Some in Hgot.
Qed.

(** The passes of the loop from [foffset] on, whatever [calc_crc16]
    does to the stream. *)
Lemma write_loop_pass_bound (fuel : nat) (j : flash_job) :
  0 < BLKSZ ->
  ∀ (f : FILE) (foffset : Z) (t : list event) (reads : list block_read),
    0 ≤ foffset ->
    write_loop fuel j f foffset = (t, Ret reads) ->
    (1 ≤ length reads)%nat ∧
    (Z.of_nat (length reads) - 1) * BLKSZ
    ≤ Z.max 0 (Z.of_nat (length (f_data f)) - foffset + BLKSZ - 1).
Proof.
  intros HB. induction fuel as [|fuel IH]; intros f foffset t reads Hoff Hrun;
    [done|].
  cbn [write_loop] in Hrun. rewrite read_block_at in Hrun by done.
  unfold mbind, M_bind, bind, mret, M_ret, ret in Hrun.
  rewrite write_non_empty_cases in Hrun.
  set (got := image_range (f_data f) foffset BLKSZ) in *.
  assert (length got
          = (Z.to_nat BLKSZ `min` (length (f_data f) - Z.to_nat foffset))%nat)
    as Hgot by apply length_image_range.
  assert (∀ (f2 : FILE) t' rds,
            f_data f2 = f_data f ->
            got ≠ [] ->
            write_loop fuel j f2 (foffset + BLKSZ) = (t', Ret rds) ->
            (1 ≤ S (length rds))%nat ∧
            (Z.of_nat (S (length rds)) - 1) * BLKSZ
            ≤ Z.max 0 (Z.of_nat (length (f_data f)) - foffset + BLKSZ - 1))
    as Hnext.
  { intros f2 t' rds Hdata Hne Hrest.
    assert (0 ≤ foffset + BLKSZ) as Hoff' by lia.
    destruct (IH f2 (foffset + BLKSZ) t' rds Hoff' Hrest) as [Hone Hb].
    rewrite Hdata in Hb. split; [lia|].
    assert (1 ≤ length got)%nat by (destruct got; [done|simpl; lia]).
    nia. }
  destruct (Z.eqb_spec (scan_block (fill_buf got)) BLKSZ) as [Hempty|Hfull].
  - destruct (feof (stream_after_fread (f_data f) foffset)) eqn:Heof.
    { injection Hrun as <- <-. simpl. split; [lia|]. lia. }
    destruct (write_loop fuel j _ (foffset + BLKSZ)) as [t' [rds| | |]] eqn:Hrest;
      try done.
    injection Hrun as <- <-. cbn [length].
    eapply Hnext; [|  |exact Hrest]; [done|].
    unfold feof, stream_after_fread in Heof. simpl in Heof. fold got in Heof.
    intros Hnil. rewrite Hnil in Heof. simpl in Heof.
    apply Z.ltb_ge in Heof. lia.
  - assert (got ≠ []) as Hne.
    { intros Hnil. rewrite Hnil in Hfull. apply Hfull.
      apply scan_block_fill_nil. lia. }
    destruct (check_crc_array_outcome (get_crc_startpos (j_hw_type j)) foffset
                (stream_after_fread (f_data f) foffset) (fill_buf got))
      as [Hu|(buf' & f' & Hchk & _ & Hdata)]; rewrite ?Hu, ?Hchk in Hrun;
      [done|].
    destruct (feof f').
    { injection Hrun as <- <-. simpl. split; [lia|]. lia. }
    destruct (write_loop fuel j _ (foffset + BLKSZ)) as [t' [rds| | |]] eqn:Hrest;
      try done.
    injection Hrun as <- <-. cbn [length].
    eapply Hnext; [| |exact Hrest]; done.
Qed.

(** X12.  The write loop comes to an end whatever [calc_crc16] does to
    the stream: for an image of [n] bytes it makes at least one and at
    most [n / BLKSZ + 2] passes, and fuel for that many passes is never
    used up. *)
Theorem write_loop_ends_for_any_helper :
  0 < BLKSZ ->
  ∀ (fuel : nat) (j : flash_job) (f : FILE),
    let n := Z.of_nat (length (f_data f)) in
    (n `div` BLKSZ + 2 ≤ Z.of_nat fuel ->
     result (write_loop fuel j f 0) ≠ OutOfFuel)
    ∧ (∀ reads, result (write_loop fuel j f 0) = Ret reads ->
                1 ≤ Z.of_nat (length reads) ≤ n `div` BLKSZ + 2).
Proof.
  intros HB fuel j f n. split.
  - intros Hfuel.
    destruct (fuel_covers_image n fuel) as [Hone Hbound]; [done|lia|done|].
    destruct (write_loop_outcome fuel j HB f 0) as [Hu|[reads Hr]];
      [done..| |]; congruence.
  - intros reads Hret.
    destruct (write_loop fuel j f 0) as [t o] eqn:Hrun. simpl in Hret. subst o.
    destruct (write_loop_pass_bound fuel j HB f 0 t reads ltac:(lia) Hrun)
      as [Hone Hb].
    fold n in Hb. split; [lia|].
    pose proof (Z.mul_succ_div_gt n BLKSZ HB).
    assert (0 ≤ n) by lia. nia.
Qed.

(** X13.  No byte of the image is lost.  For a hardware type without a
    CRC array to patch, every byte of the image that is not 0xFF is
    handed to [write_block]: in the block of [BLKSZ] bytes that holds
    it, at its place in the block, at the flash address of the block;
    the buffer handed over holds the bytes of the image from the block's
    offset on, filled up with 0xFF. *)
Theorem every_byte_reaches_write_block :
  0 < BLKSZ ->
  ∀ (fuel : nat) (j : flash_job) (f : FILE) (p : nat) (b : Z),
    get_crc_startpos (j_hw_type j) = 0 ->
    Z.of_nat (length (f_data f)) `div` BLKSZ + 2 ≤ Z.of_nat fuel ->
    f_data f !! p = Some b ->
    b ≠ 255 ->
    let foffset := Z.of_nat p `div` BLKSZ * BLKSZ in
    let buf := fill_buf (image_range (f_data f) foffset BLKSZ) in
    EvWriteBlock (j_dry_run j) (j_module_id j)
      (foffset + get_flash_offset (j_hw_type j)) BLKSZ buf
      (has_hw_flags (j_hw_type j) FDATA_INVERT) (j_dlc j)
    ∈ trace (write_loop fuel j f 0)
    ∧ buf !! Z.to_nat (Z.of_nat p `mod` BLKSZ) = Some b.
Proof.
  intros HB fuel j f p b Hcrc Hfuel Hp Hb foffset buf.
  pose proof (fill_buf_lookup_image (f_data f) p b HB Hp) as Hbyte.
  fold foffset in Hbyte. fold buf in Hbyte. split; [|done].
  set (n := Z.of_nat (length (f_data f))) in *.
  apply lookup_lt_Some in Hp as Hlt.
  pose proof (Z.mod_pos_bound (Z.of_nat p) BLKSZ HB) as Hr.
  assert (0 ≤ Z.of_nat p `div` BLKSZ) as Hq by (apply Z.div_pos; lia).
  assert (Z.of_nat p `div` BLKSZ ≤ n `div` BLKSZ) as Hle
    by (apply Z.div_le_mono; lia).
  destruct (write_loop_completes fuel j f HB Hfuel
              (write_loop_defined_without_crc fuel j Hcrc f 0))
    as (reads & Hrun & Hoffs & Hok).
  pose proof (write_loop_passes fuel j (f_data f) HB
                (crc_check_keeps_eof_no_crc (f_data f) j Hcrc) f 0 _ reads
                eq_refl ltac:(fold n; lia) Hrun) as Hlen.
  fold n in Hlen.
  destruct (lookup_lt_is_Some_2 reads (Z.to_nat (Z.of_nat p `div` BLKSZ)))
    as [rd Hrd]; [lia|].
  pose proof (Hoffs _ _ Hrd) as Hoff. rewrite Z2Nat.id in Hoff by done.
  fold foffset in Hoff.
  rewrite Forall_forall in Hok.
  destruct (Hok rd (list_elem_of_lookup_2 _ _ _ Hrd)) as [Hbuf Hsent].
  rewrite Hoff in Hbuf. fold buf in Hbuf.
  assert (scan_block (br_buf rd) ≠ BLKSZ) as Hfull.
  { rewrite Hbuf. intros Hempty.
    apply scan_block_empty in Hempty; [|lia|].
    - rewrite Forall_forall in Hempty. apply Hb, Hempty.
      apply (list_elem_of_lookup_2 _ (Z.to_nat (Z.of_nat p `mod` BLKSZ))).
      by rewrite lookup_take_lt by lia.
    - subst buf. rewrite length_fill_buf; [lia|].
      rewrite length_image_range. lia. }
  destruct (br_sent rd) as [sent|] eqn:Hs; [|done].
  destruct Hsent as (_ & f0 & f1 & _ & Hchk).
  rewrite Hcrc, check_crc_array_off in Hchk. injection Hchk as <- _.
  rewrite Hrun. simpl. apply list_elem_of_omap. exists rd.
  split; [by eapply list_elem_of_lookup_2|].
  unfold write_event. by rewrite Hs, Hoff, Hbuf.
Qed.

End WriteLoopFacts.

(** ** The ident string of the CRC array (line 302) *)

Section IdentFacts.
Context `{CrcArray}.

Lemma c_strcmp_eq_prefix (lit : list Z) :
  Forall (fun c => c ≠ 0) lit ->
  ∀ (c : Z) (rest : list Z),
    c_strcmp_eq (lit ++ c :: rest) lit = Some (c =? 0).
Proof.
  induction lit as [|c0 lit IH]; intros Hlit c rest; [done|].
  apply Forall_cons in Hlit as [Hc0 Hlit]. simpl.
  rewrite Z.eqb_refl. destruct (Z.eqb_spec c0 0); [done|]. by apply IH.
Qed.

Lemma c_strcmp_eq_true (lit : list Z) :
  Forall (fun c => c ≠ 0) lit ->
  ∀ (mem : list Z),
    c_strcmp_eq mem lit = Some true ↔ ∃ rest, mem = lit ++ 0 :: rest.
Proof.
  induction lit as [|c0 lit IH]; intros Hlit mem.
  - destruct mem as [|m mem]; simpl.
    + split; [done|]. by intros [rest ?].
    + split.
      * intros [= Hm]. apply Z.eqb_eq in Hm as ->. by exists mem.
      * intros [rest [= -> ->]]. done.
  - apply Forall_cons in Hlit as [Hc0 Hlit].
    destruct mem as [|m mem]; simpl.
    + split; [done|]. by intros [rest ?].
    + destruct (Z.eqb_spec m c0) as [->|Hne].
      * destruct (Z.eqb_spec c0 0); [done|]. rewrite (IH Hlit mem).
        split; intros [rest Hrest]; exists rest; [by rewrite Hrest|].
        by injection Hrest.
      * split; [done|]. intros [rest [= Hm _]]. done.
Qed.

(** X14.  The CRC array is recognised by its ident string with the
    terminating 0: the comparison succeeds exactly when the bytes of
    [ca->str] are those of CRC_IDENT_STRING followed by a byte 0.  A
    block that has the characters of the ident string followed by any
    other byte is written as it was read, and the stream is left
    alone. *)
Theorem crc_ident_needs_its_terminator :
  Forall (fun c => c ≠ 0) CRC_IDENT_STRING ->
  ∀ (infile : FILE) (buf : list Z) (ca_idx : nat),
    (ca_str_is_ident buf ca_idx = Some true
     ↔ ∃ rest, drop (ca_idx + str_off) buf = CRC_IDENT_STRING ++ 0 :: rest)
    ∧ (∀ c rest,
         c ≠ 0 ->
         drop (ca_idx + str_off) buf = CRC_IDENT_STRING ++ c :: rest ->
         patch_crc_array infile buf ca_idx = Ret (buf, infile)).
Proof.
  intros Hlit infile buf ca_idx. split.
  - unfold ca_str_is_ident. by apply c_strcmp_eq_true.
  - intros c rest Hc Hmem. unfold patch_crc_array, ca_str_is_ident.
    rewrite Hmem, c_strcmp_eq_prefix by done.
    by destruct (Z.eqb_spec c 0).
Qed.

End IdentFacts.

(** ** What the module list prints (lines 187-193) *)

Section PrintFacts.

Lemma shifted_parts_disjoint (a b : Z) :
  0 ≤ b < 256 -> Z.land (Z.shiftl a 2) (Z.shiftr b 6) = 0.
Proof.
  intros Hb. apply Z.bits_inj'. intros n Hn.
  rewrite Z.land_spec, Z.bits_0, Z.shiftr_spec by done.
  destruct (decide (n < 2)) as [Hlow|Hhigh].
  - by rewrite Z.shiftl_spec_low.
  - assert (Z.testbit b (n + 6) = false) as ->; [|by rewrite andb_false_r].
    destruct (decide (b = 0)) as [->|Hnz]; [apply Z.bits_0|].
    apply Z.bits_above_log2; [lia|].
    assert (Z.log2 b < 8); [|lia].
    apply Z.log2_lt_pow2; lia.
Qed.

(** X15.  The numbers printed for a module found, its data bytes being
    bytes: the bootloader version splits [data[6]] into its upper 3
    and its lower 5 bits, and nothing is lost; the "ppcan hw id" is made
    of the lower 6 bits of [data[0]] and the upper 2 bits of [data[1]],
    the upper 2 bits of [data[0]] being cut off by the mask 0xFF. *)
Theorem module_list_numbers :
  ∀ (m : can_frame),
    (0 ≤ data_at m 6 < 256 ->
     0 ≤ bootloader_major m < 8 ∧
     0 ≤ bootloader_minor m < 32 ∧
     bootloader_major m * 32 + bootloader_minor m = data_at m 6)
    ∧ (0 ≤ data_at m 0 < 256 ->
       0 ≤ data_at m 1 < 256 ->
       ppcan_hw_id m = data_at m 0 `mod` 64 * 4 + data_at m 1 `div` 64).
Proof.
  intros m. split.
  - intros Hb. unfold bootloader_major, bootloader_minor.
    rewrite Z.shiftr_div_pow2 by lia.
    change 31 with (Z.ones 5). rewrite Z.land_ones by lia.
    change (2 ^ 5) with 32.
    pose proof (Z.div_mod (data_at m 6) 32). 
    pose proof (Z.mod_pos_bound (data_at m 6) 32).
    assert (0 ≤ data_at m 6 `div` 32 < 8); [|lia].
    split; [apply Z.div_pos; lia|apply Z.div_lt_upper_bound; lia].
  - intros Ha Hb. unfold ppcan_hw_id.
    change 255 with (Z.ones 8). rewrite Z.land_ones by lia.
    pose proof (Z.add_lor_land (Z.shiftl (data_at m 0) 2)
                  (Z.shiftr (data_at m 1) 6)) as Hadd.
    rewrite shifted_parts_disjoint in Hadd by done.
    rewrite Z.add_0_r in Hadd. rewrite Hadd.
    rewrite Z.shiftl_mul_pow2, Z.shiftr_div_pow2 by lia.
    change (2 ^ 2) with 4. change (2 ^ 6) with 64. change (2 ^ 8) with 256.
    assert (0 ≤ data_at m 1 `div` 64 < 4)
      by (split; [apply Z.div_pos; lia|apply Z.div_lt_upper_bound; lia]).
    pose proof (Z.div_mod (data_at m 0) 64).
    pose proof (Z.mod_pos_bound (data_at m 0) 64).
    symmetry.
    apply (Z.mod_unique _ _ (data_at m 0 `div` 64)); lia.
Qed.

End PrintFacts.

(** ** A CRC array that does not fit into the block (lines 306-311) *)

Section OversizedFacts.
Context `{CrcArray}.

(** A patch loop that came to its end stored every checksum inside
    [buf]. *)
Lemma patch_blocks_stores_fit (fuel : nat) :
  crc_array_wf ->
  ∀ (f f' : FILE) (buf buf' : list Z) (ca_idx : nat) (i count : Z),
    patch_blocks fuel f buf ca_idx i = Ret (buf', f') ->
    ca_count buf ca_idx = Some count ->
    ∀ k, i ≤ k < count ->
         (block_idx ca_idx k + crc_off + crc_sz ≤ length buf)%nat.
Proof.
  intros Hwf. pose proof Hwf as (Hcb & _).
  induction fuel as [|fuel IH];
    intros f f' buf buf' ca_idx i count Hrun Hcount k Hk;
    cbn [patch_blocks] in Hrun; rewrite Hcount in Hrun;
    (destruct (Z.ltb_spec i count); [|lia]);
    (destruct (block_address buf ca_idx i) as [address|]; [|done]);
    (destruct (block_len buf ca_idx i) as [len|]; [|done]);
    destruct (calc_crc16 f address len) as [crc f1];
    (destruct (set_block_crc buf ca_idx i crc) as [buf1|] eqn:Hst; [|done]);
    [done|].
  unfold set_block_crc in Hst.
  pose proof (store_fits _ _ _ _ _ Hst) as Hfit.
  pose proof (store_length _ _ _ _ _ Hst) as Hlen.
  destruct (decide (k = i)) as [->|Hne]; [lia|].
  rewrite <- Hlen. eapply (IH _ _ _ _ _ _ count); [exact Hrun| |lia].
  unfold ca_count in *. rewrite <- Hcount.
  eapply load_store_other; [done|].
  left. pose proof (block_idx_base ca_idx i). lia.
Qed.

(** X16.  The number of elements comes from the image and is not
    checked against the size of [buf]: when the CRC array has the ident
    string and a supported mode, and its last element does not lie
    inside [buf], the patch loop reads or writes outside the array. *)
Theorem oversized_crc_array_leaves_buf :
  crc_array_wf ->
  ∀ (infile : FILE) (buf : list Z) (ca_idx : nat) (mode count : Z),
    ca_str_is_ident buf ca_idx = Some true ->
    ca_mode buf ca_idx = Some mode ->
    supported_mode mode = true ->
    ca_count buf ca_idx = Some count ->
    0 < count ->
    (length buf < block_idx ca_idx (count - 1) + crc_off + crc_sz)%nat ->
    patch_crc_array infile buf ca_idx = Undefined.
Proof.
  intros Hwf infile buf ca_idx mode count Hid Hmode Hsup Hcount Hpos Hout.
  unfold patch_crc_array. rewrite Hid, Hmode, Hsup.
  destruct (patch_blocks_outcome (S (length buf)) infile buf ca_idx 0)
    as [Hu|(buf' & f' & Hrun)]; [lia|lia|done|].
  pose proof (patch_blocks_stores_fit _ Hwf _ _ _ _ _ _ _ Hrun Hcount
                (count - 1)) as Hfit.
  lia.
Qed.

End OversizedFacts.

(** ** A module that fails its check (lines 181-203) *)

Section DiscoveryErrors.
Context `{Constants, HardwareTable, CrcArray}.

Lemma module_list_loop_stops (w : world) (k : nat) (m : can_frame) :
  modules_array w !! k = Some m ->
  can_id m ≠ 0 ->
  (wants_json w (Z.of_nat k) = false ∧
   check_flash_id_type (data_at (w_status w (Z.of_nat k)) 3)
                       (data_at (w_status w (Z.of_nat k)) 4) = true)
  ∨ (wants_json w (Z.of_nat k) = true ∧
     w_json w (Z.of_nat k) m (w_status w (Z.of_nat k)) = None) ->
  result (module_list_loop w (Z.to_nat MAX_MODULES) 0 (modules_array w))
  = Exit 1.
Proof.
  intros Hk Hnz Hfail.
  destruct (module_list_loop_outcome w (Z.to_nat MAX_MODULES) 0 (modules_array w))
    as [[modules' Hret]|Hexit];
    [lia|rewrite length_modules_array; lia| |done].
  destruct (module_list_loop w _ 0 _) as [t o] eqn:Hrun.
  simpl in Hret. subst o.
  assert (0 ≤ 0) as Hzero by lia.
  destruct (module_list_loop_spec w _ 0 _ _ _ Hzero Hrun) as (_ & _ & _ & Hnew).
  apply lookup_lt_Some in Hk as Hlt. rewrite length_modules_array in Hlt.
  assert (Z.to_nat 0 ≤ k < Z.to_nat 0 + Z.to_nat MAX_MODULES)%nat as Hin by lia.
  destruct (Hnew k m Hk Hin Hnz) as (m1 & cf1 & _ & Hchk & Hjs).
  destruct Hfail as [[Hno Hbad]|[Hyes Hnone]].
  - rewrite Hno in Hjs. injection Hjs as -> ->. congruence.
  - rewrite Hyes in Hjs. congruence.
Qed.

(** X17.  One module that fails its check stops [main], whichever
    module was to be flashed.  When a module found has a status whose
    flash type [check_flash_id_type] refuses for its hardware type, or
    its JSON configuration cannot be read, no command that changes a
    module is sent to any module; [main] ends with status 1, or with
    status 0 if the invocation was refused with the usage before. *)
Theorem failed_module_check_stops_main :
  ∀ (fuel : nat) (w : world) (k : nat) (m : can_frame),
    modules_array w !! k = Some m ->
    can_id m ≠ 0 ->
    (wants_json w (Z.of_nat k) = false ∧
     check_flash_id_type (data_at (w_status w (Z.of_nat k)) 3)
                         (data_at (w_status w (Z.of_nat k)) 4) = true)
    ∨ (wants_json w (Z.of_nat k) = true ∧
       w_json w (Z.of_nat k) m (w_status w (Z.of_nat k)) = None) ->
    Forall (fun e => mutating e = false) (trace (main fuel w)) ∧
    (result (main fuel w) = Exit 1
     ∨ result (main fuel w) = Exit 0 ∧
       ∃ o, getopt_loop (w_opts w) initial_options = ([], Ret o) ∧
            bad_invocation w o = true).
Proof.
  intros fuel w k m Hk Hnz Hfail.
  pose proof (module_list_loop_stops w k m Hk Hnz Hfail) as Hstop.
  pose proof (module_list_loop_quiet w (Z.to_nat MAX_MODULES) 0 (modules_array w))
    as Hquiet.
  unfold main.
  destruct (getopt_loop_outcome (w_opts w) initial_options) as [[o Hopt]|Hopt];
    rewrite Hopt; unfold_M; [|split; [by constructor|by left]].
  destruct (bad_invocation w o) eqn:Hinv.
  { split; [by constructor|]. right. split; [done|]. by exists o. }
  destruct (open_transport_cases w) as [(-> & _)|(-> & _)];
    [|split; [by constructor|by left]].
  destruct (w_entries w =? 0); [split; [by repeat constructor|by left]|].
  destruct (module_list_loop w _ 0 _) as [t0 r0]. simpl in Hstop, Hquiet.
  subst r0. simpl. split; [constructor; [done|exact Hquiet]|by left].
Qed.

End DiscoveryErrors.

(** * The further properties on the small platform *)

Section BenchRuns.
#[local] Existing Instance Demo.constants.
#[local] Existing Instance Demo.hardware.
#[local] Existing Instance Demo.crc_array.

(** X1 on [pcanflash -q -x can0]. *)
Lemma bad_option_exits_with_1_witness :
  main 10 Bench.session_bad_option = ([], Exit 1).
Proof.
  exact (@bad_option_exits_with_1
           Demo.constants Demo.hardware Demo.crc_array
           10 Bench.session_bad_option
           ltac:(left; apply list_elem_of_further, list_elem_of_here)).
Defined.

(** X2 on the options [-r -f image -d -r]. *)
Lemma getopt_flags_accumulate_witness :
  ∃ o',
    getopt_loop [OptR; OptF (Some Demo.image); OptD; OptR] initial_options
    = ([], Ret o') ∧
    o_query o' = false ∧ o_do_reset o' = true ∧ o_dry_run o' = true ∧
    is_Some (o_infile o').
Proof.
  destruct (getopt_flags_accumulate
              [OptR; OptF (Some Demo.image); OptD; OptR]
              (@initial_options Demo.constants)
              ltac:(repeat first [apply Forall_nil_2
                                 |apply Forall_cons_2; [split; discriminate|]]))
    as (o' & Hrun & Hq & Hr & Hd & Hf).
  exists o'. split; [exact Hrun|].
  vm_compute in Hrun. injection Hrun as <-.
  repeat split; try reflexivity. by eexists.
Defined.

(** X4 on [Demo.session]: the modules in the slots 1 and 2 get the
    hardware type 1 of the status reply in [data[7]]. *)
Lemma module_list_records_hw_type_witness :
  length Demo.modules = 4%nat ∧
  ∀ (k : nat) (m : can_frame),
    modules_array Demo.session !! k = Some m ->
    (can_id m = 0 -> Demo.modules !! k = Some m) ∧
    (can_id m ≠ 0 ->
     ∃ m', Demo.modules !! k = Some m' ∧
           (∃ flash_type,
              check_flash_id_type (data_at m' 7) flash_type = false) ∧
           (wants_json Demo.session (Z.of_nat k) = false ->
            data_at m' 7 = data_at (w_status Demo.session (Z.of_nat k)) 3 ∧
            can_id m' = can_id m ∧ can_dlc m' = can_dlc m ∧
            ∀ p, p ≠ 7%nat -> data_at m' p = data_at m p)).
Proof.
  exact (@module_list_records_hw_type
           Demo.constants Demo.hardware
           Demo.session [EvGetStatus 1; EvGetStatus 2] Demo.modules
           ltac:(vm_compute; reflexivity)).
Defined.

(** X5 on [pcanflash -q can0]. *)
Lemma query_mode_changes_nothing_witness :
  Forall (fun e => mutating e = false) (trace (main 10 Bench.session_query)) ∧
  (result (main 10 Bench.session_query) = Exit 0
   ∨ result (main 10 Bench.session_query) = Exit 1).
Proof.
  exact (@query_mode_changes_nothing
           Demo.constants Demo.hardware Demo.crc_array
           10 Bench.session_query ltac:(apply list_elem_of_here)).
Defined.

(** X7 on [Demo.session]: two modules, and [scanf] stores 1. *)
Lemma typed_module_id_stays_in_array_witness :
  0 ≤ choose_module_id Demo.session NO_MODULE_ID 2 Demo.modules
    ≤ MAX_MODULES_MASK ∧
  ∃ m, Demo.modules
         !! Z.to_nat (choose_module_id Demo.session NO_MODULE_ID 2 Demo.modules)
       = Some m ∧
       select_module Demo.session NO_MODULE_ID 2 Demo.modules
       = if can_id m =? 0 then ([], Exit 1)
         else ([], Ret (choose_module_id Demo.session NO_MODULE_ID 2
                          Demo.modules, m)).
Proof.
  exact (@typed_module_id_stays_in_array
           Demo.constants
           Demo.session 2 Demo.modules
           ltac:(discriminate) ltac:(vm_compute; split; [discriminate|reflexivity])).
Defined.

(** X8 on [Demo.image] and hardware type 1, with [-r]. *)
Lemma flash_session_calls_witness :
  (get_num_flashblocks 1 = 0 ->
   flash_session 10 Demo.job true (fopen Demo.image)
   = ([EvSwitchToBootloader 2; EvGetStatus 2], Exit 1))
  ∧ (∀ reads,
       result (flash_session 10 Demo.job true (fopen Demo.image)) = Ret reads ->
       get_num_flashblocks 1 ≠ 0 ∧
       trace (flash_session 10 Demo.job true (fopen Demo.image))
       = [EvSwitchToBootloader 2; EvGetStatus 2]
         ++ [EvEraseFlashblocks false 2 1 0; EvEraseFlashblocks false 2 1 1;
             EvEraseFlashblocks false 2 1 2]
         ++ omap (write_event Demo.job) reads
         ++ [EvEndProgramming 2; EvGetStatus 2]
         ++ [EvResetModule 2]).
Proof.
  exact (@flash_session_calls
           Demo.constants Demo.hardware Demo.crc_array
           demo_blksz_pos 10 Demo.job true (fopen Demo.image)).
Defined.


(** X12 on [Demo.image]: 40 bytes in blocks of 16, at most 4 passes. *)
Lemma write_loop_ends_for_any_helper_witness :
  (40 `div` 16 + 2 ≤ Z.of_nat 10 ->
   result (write_loop 10 Demo.job (fopen Demo.image) 0) ≠ OutOfFuel)
  ∧ (∀ reads,
       result (write_loop 10 Demo.job (fopen Demo.image) 0) = Ret reads ->
       1 ≤ Z.of_nat (length reads) ≤ 40 `div` 16 + 2).
Proof.
  exact (@write_loop_ends_for_any_helper
           Demo.constants Demo.hardware Demo.crc_array
           demo_blksz_pos 10 Demo.job (fopen Demo.image)).
Defined.

(** X13 on [Demo.image_crc_at_0] and hardware type 2: the byte 1 at
    offset 4 of the image. *)
Lemma every_byte_reaches_write_block_witness :
  EvWriteBlock false 2 4096 16
    [67; 82; 67; 0; 1; 1; 0; 4; 0; 0; 7; 7; 7; 7; 7; 7; 255; 255] true 6
  ∈ trace (write_loop 10 Demo.job_no_crc (fopen Demo.image_crc_at_0) 0)
  ∧ [67; 82; 67; 0; 1; 1; 0; 4; 0; 0; 7; 7; 7; 7; 7; 7; 255; 255] !! 4%nat
    = Some 1.
Proof.
  exact (@every_byte_reaches_write_block
           Demo.constants Demo.hardware Demo.crc_array
           demo_blksz_pos 10 Demo.job_no_crc (fopen Demo.image_crc_at_0)
           4%nat 1
           ltac:(reflexivity) ltac:(vm_compute; discriminate)
           ltac:(reflexivity) ltac:(discriminate)).
Defined.

(** X14 on the ident string "CRC" and the first block of [Demo.image]. *)
Lemma crc_ident_needs_its_terminator_witness :
  ca_str_is_ident (take 16 Demo.image ++ [255; 255]) 2 = Some true
  ↔ ∃ rest, drop (2 + str_off) (take 16 Demo.image ++ [255; 255])
            = CRC_IDENT_STRING ++ 0 :: rest.
Proof.
  exact (proj1 (@crc_ident_needs_its_terminator
                  Demo.crc_array
                  ltac:(repeat first [apply Forall_nil_2
                                     |apply Forall_cons_2; [discriminate|]])
                  (fopen Demo.image) (take 16 Demo.image ++ [255; 255]) 2%nat)).
Defined.

(** X16 on [Bench.oversized_block]: 200 elements of 4 bytes do not fit
    into the 18 bytes of [buf]. *)
Lemma oversized_crc_array_leaves_buf_witness :
  patch_crc_array (fopen Demo.image) Bench.oversized_block 2 = Undefined.
Proof.
  exact (@oversized_crc_array_leaves_buf
           Demo.crc_array demo_crc_array_wf
           (fopen Demo.image) Bench.oversized_block 2%nat 1 200
           ltac:(reflexivity) ltac:(reflexivity) ltac:(reflexivity)
           ltac:(reflexivity) ltac:(reflexivity) ltac:(vm_compute; lia)).
Defined.

(** X17 on [Bench.session_mismatch]: the module in slot 1 has flash
    type 2 with hardware type 1, and the module in slot 2 is not
    flashed. *)
Lemma failed_module_check_stops_main_witness :
  Forall (fun e => mutating e = false)
         (trace (main 10 Bench.session_mismatch)) ∧
  (result (main 10 Bench.session_mismatch) = Exit 1
   ∨ result (main 10 Bench.session_mismatch) = Exit 0 ∧
     ∃ o, getopt_loop (w_opts Bench.session_mismatch) initial_options
          = ([], Ret o) ∧
          bad_invocation Bench.session_mismatch o = true).
Proof.
  exact (@failed_module_check_stops_main
           Demo.constants Demo.hardware Demo.crc_array
           10 Bench.session_mismatch 1%nat Demo.found
           ltac:(reflexivity) ltac:(discriminate)
           ltac:(left; split; reflexivity)).
Defined.

End BenchRuns.
